(** * Notification grouping ([web/hooks/use-notifications.ts])

    A shallow embedding of [groupNotifications] together with the pieces of
    JavaScript and lodash it is written with: objects as ordered property
    tables, [groupBy], [partition], [map] over an object, [Array.prototype.sort]
    with a comparator, and [Array.prototype.includes].

    Modelling choices.
    - [createdTime] is an integer number of milliseconds (a [Z]); fractional
      and NaN timestamps are outside the model.
    - [new Date(t).toDateString()] depends on the time zone of the process, so
      it is a parameter [toDateString : Z -> string] of the development.  A
      UTC instance, [utcDateString], is provided to run the code on concrete
      inputs.
    - An optional field ([sourceType?], [sourceContractId?]) is an [option]. *)

From Stdlib Require Import List String Ascii ZArith NArith Bool Lia.
From Stdlib Require Import Permutation Sorted DecimalString.
Import ListNotations.
Local Open Scope string_scope.
Local Open Scope list_scope.
Local Open Scope Z_scope.

Set Implicit Arguments.

(** ** JavaScript values used by the hook *)

Module JS.

(** *** Property keys

    [OrdinaryOwnPropertyKeys] lists the keys that are array indices first,
    in ascending numeric order, and then the other string keys in the order
    the properties were created.  An array index is a canonical decimal
    numeral (no sign, no leading zero) below [2^32 - 1]. *)

Definition digit (c : ascii) : option N :=
  let n := N_of_ascii c in
  if ((48 <=? n) && (n <=? 57))%N then Some (n - 48)%N else None.

Fixpoint digits (s : string) (acc : N) : option N :=
  match s with
  | EmptyString => Some acc
  | String c rest =>
      match digit c with
      | Some d => digits rest (10 * acc + d)%N
      | None => None
      end
  end.

Definition arrayIndex (s : string) : option N :=
  match s with
  | EmptyString => None
  | String c rest =>
      if Ascii.eqb c "0"%char then
        if String.eqb rest "" then Some 0%N else None
      else
        match digits s 0 with
        | Some n => if (n <? 2 ^ 32 - 1)%N then Some n else None
        | None => None
        end
  end.

Definition isArrayIndex (s : string) : bool :=
  match arrayIndex s with Some _ => true | None => false end.

(** [String(v)] for an optional string: a missing value is [undefined],
    and [undefined] used as a property key is the key ["undefined"]. *)
Definition toPropertyKey (v : option string) : string :=
  match v with
  | Some s => s
  | None => "undefined"
  end.

(** [v ?? d] *)
Definition nullish (v : option string) (d : string) : string :=
  match v with
  | Some s => s
  | None => d
  end.

(** [xs.includes(x)] on an array of strings *)
Definition includes (xs : list string) (x : string) : bool :=
  existsb (String.eqb x) xs.

(** *** Arrays

    [xs.sort(compareFn)].  The sort is stable and, for a consistent
    comparator, its result is determined by the comparator alone; it is
    written here as a stable insertion sort.  [compareFn a b <= 0] keeps
    [a] in front of [b].  The hook sorts, in place, the arrays [groupBy]
    has just created; no other reference to them exists, so the sort is
    modelled by its result. *)

Section Sort.
Variable A : Type.
Variable compareFn : A -> A -> Z.

Fixpoint insert (x : A) (sorted : list A) : list A :=
  match sorted with
  | [] => [x]
  | y :: rest =>
      if compareFn x y <=? 0 then x :: y :: rest
      else y :: insert x rest
  end.

Fixpoint sort (xs : list A) : list A :=
  match xs with
  | [] => []
  | x :: rest => insert x (sort rest)
  end.
End Sort.

(** *** Objects

    An object built by [groupBy] is a table of own properties, kept in the
    order the properties were created. *)

Definition object (V : Type) := list (string * V).

Section Object.
Variable V : Type.

Definition compareIndex (p q : string * V) : Z :=
  match arrayIndex (fst p), arrayIndex (fst q) with
  | Some i, Some j => Z.of_N i - Z.of_N j
  | _, _ => 0
  end.

(** The own properties in the order [Object.keys] and [for ... in]
    visit them. *)
Definition ownProperties (o : object V) : list (string * V) :=
  sort compareIndex (filter (fun p => isArrayIndex (fst p)) o)
    ++ filter (fun p => negb (isArrayIndex (fst p))) o.

(** [Object.keys(o)] *)
Definition keys (o : object V) : list string :=
  map fst (ownProperties o).

(** [o[k]]; [None] is [undefined] *)
Fixpoint get (o : object V) (k : string) : option V :=
  match o with
  | [] => None
  | (k', v) :: rest => if String.eqb k' k then Some v else get rest k
  end.
End Object.

End JS.

(** ** lodash *)

Module Lodash.
Import JS.

Section Collections.
Variable A : Type.

(** One step of [groupBy]'s aggregator: push [value] on the array stored
    under [key] when the result has that own property, create the
    property with [[value]] otherwise. *)
Fixpoint assign (result : object (list A)) (key : string) (value : A)
  : object (list A) :=
  match result with
  | [] => [(key, [value])]
  | (k, vs) :: rest =>
      if String.eqb k key then (k, vs ++ [value]) :: rest
      else (k, vs) :: assign rest key value
  end.

(** [groupBy(collection, iteratee)] *)
Definition groupBy (collection : list A) (iteratee : A -> string)
  : object (list A) :=
  fold_left (fun result value => assign result (iteratee value) value)
            collection [].

(** [partition(collection, predicate)] *)
Definition partition (collection : list A) (predicate : A -> bool)
  : list A * list A :=
  (filter predicate collection,
   filter (fun x => negb (predicate x)) collection).
End Collections.

(** [map(o, iteratee)] on an object: [iteratee(value, key)] for every own
    property, in [Object.keys] order. *)
Definition map (V B : Type) (o : object V) (iteratee : V -> string -> B)
  : list B :=
  List.map (fun p => iteratee (snd p) (fst p)) (ownProperties o).

End Lodash.

(** ** The data model *)

Record Notification := {
  id : string;
  createdTime : Z;
  isSeen : bool;
  sourceType : option string;
  sourceContractId : option string
}.

Module NotificationGroup.

Inductive kind := income | normal.

Record t := {
  notifications : list Notification;
  groupedById : string;
  isSeen : bool;
  timePeriod : string;
  type : kind
}.

End NotificationGroup.

Import NotificationGroup(notifications, groupedById, timePeriod, type, income, normal).

(** ** [groupNotifications] *)

Definition incomeSourceTypes : list string :=
  ["bonus"; "tip"; "loan"; "betting_streak_bonus"; "tip_and_like"].

Section GroupNotifications.

(** [fun t => new Date(t).toDateString()] *)
Variable toDateString : Z -> string.

Definition dayOf (notification : Notification) : string :=
  toDateString (createdTime notification).

Definition isIncome (notification : Notification) : bool :=
  JS.includes incomeSourceTypes (JS.nullish (sourceType notification) "").

Definition contractKey (notification : Notification) : string :=
  JS.toPropertyKey (sourceContractId notification).

Definition byCreatedTimeDesc (a b : Notification) : Z :=
  createdTime b - createdTime a.

(** The [map] callback: the group made of one contract's notifications. *)
Definition notificationGroupOf (day : string)
           (notifications : list Notification) (contractId : string)
  : NotificationGroup.t :=
  let notificationsForContractId :=
    JS.sort byCreatedTimeDesc notifications in
  {| notifications := notificationsForContractId;
     groupedById := contractId;
     NotificationGroup.isSeen :=
       existsb (fun n => negb (isSeen n)) notificationsForContractId;
     timePeriod := day;
     type := normal |}.

(** The body of the [forEach] callback, as a function of the accumulator
    [notificationGroups] it reassigns.  [notificationGroupsByDay[day]] is
    read with [JS.get]; an [undefined] there would make [partition] return
    two empty arrays.  Inside the [map] callback
    [groupedNotificationsByContractId[contractId]] is the array [map]
    passes as first argument. *)
Definition forEachDay (notificationGroupsByDay : JS.object (list Notification))
           (notificationGroups : list NotificationGroup.t) (day : string)
  : list NotificationGroup.t :=
  let notificationsGroupedByDay :=
    match JS.get notificationGroupsByDay day with
    | Some ns => ns
    | None => []
    end in
  let '(incomeNotifications, normalNotificationsGroupedByDay) :=
    Lodash.partition notificationsGroupedByDay isIncome in
  let notificationGroups :=
    match incomeNotifications with
    | first :: _ =>
        notificationGroups ++
          [ {| notifications := incomeNotifications;
               groupedById := String.append "income" day;
               NotificationGroup.isSeen := isSeen first;
               timePeriod := day;
               type := income |} ]
    | [] => notificationGroups
    end in
  let groupedNotificationsByContractId :=
    Lodash.groupBy normalNotificationsGroupedByDay contractKey in
  notificationGroups ++
    Lodash.map groupedNotificationsByContractId (notificationGroupOf day).

Definition groupNotifications (notifications : list Notification)
  : list NotificationGroup.t :=
  let notificationGroupsByDay := Lodash.groupBy notifications dayOf in
  fold_left (forEachDay notificationGroupsByDay)
            (JS.keys notificationGroupsByDay) [].

End GroupNotifications.

(** ** A concrete calendar: [toDateString] in the UTC time zone

    [Date.prototype.toDateString] prints the week day, the month, the day of
    the month on two digits and the year on at least four, or
    ["Invalid Date"] for a time value beyond 8.64e15 milliseconds.  The
    civil date is computed from the day number by the usual era / day-of-era
    decomposition of the proleptic Gregorian calendar. *)

Module UTC.

Definition msPerDay : Z := 86400000.

Definition weekDayNames : list string :=
  ["Sun"; "Mon"; "Tue"; "Wed"; "Thu"; "Fri"; "Sat"].

Definition monthNames : list string :=
  ["Jan"; "Feb"; "Mar"; "Apr"; "May"; "Jun";
   "Jul"; "Aug"; "Sep"; "Oct"; "Nov"; "Dec"].

(** Year, month (1 to 12) and day of the month of a day number counted
    from 1970-01-01. *)
Definition civilFromDays (days : Z) : Z * Z * Z :=
  let z := days + 719468 in
  let era := z / 146097 in
  let doe := z - era * 146097 in
  let yoe := (doe - doe / 1460 + doe / 36524 - doe / 146096) / 365 in
  let doy := doe - (365 * yoe + yoe / 4 - yoe / 100) in
  let mp := (5 * doy + 2) / 153 in
  let d := doy - (153 * mp + 2) / 5 + 1 in
  let m := if mp <? 10 then mp + 3 else mp - 9 in
  let y := yoe + era * 400 + (if m <=? 2 then 1 else 0) in
  (y, m, d).

Definition decimal (n : Z) : string :=
  NilZero.string_of_uint (N.to_uint (Z.to_N n)).

Fixpoint zeros (n : nat) : string :=
  match n with
  | O => ""
  | S n' => String "0" (zeros n')
  end.

Definition padStart (width : nat) (s : string) : string :=
  String.append (zeros (width - String.length s)) s.

Definition toDateString (t : Z) : string :=
  if 8640000000000000 <? Z.abs t then "Invalid Date"
  else
    let days := t / msPerDay in
    let '(y, m, d) := civilFromDays days in
    let weekday := nth (Z.to_nat ((days + 4) mod 7)) weekDayNames "Sun" in
    let month := nth (Z.to_nat (m - 1)) monthNames "Jan" in
    let yearSign := if y <? 0 then "-" else "" in
    String.append weekday
      (String.append " "
        (String.append month
          (String.append " "
            (String.append (padStart 2 (decimal d))
              (String.append " "
                (String.append yearSign (padStart 4 (decimal (Z.abs y))))))))).

End UTC.

Definition utcDateString : Z -> string := UTC.toDateString.

(** ** Sample notifications *)

Definition mkNotification (i : string) (t : Z) (seen : bool)
           (ty : option string) (contract : option string) : Notification :=
  {| id := i; createdTime := t; isSeen := seen;
     sourceType := ty; sourceContractId := contract |}.

(** ** Vocabulary for the statements *)

(** The distinct keys of a list, in the order they first appear. *)
Fixpoint firstOccurrences (ks : list string) : list string :=
  match ks with
  | [] => []
  | k :: rest =>
      k :: filter (fun k' => negb (String.eqb k' k)) (firstOccurrences rest)
  end.

(** The order in which [Object.keys] lists properties created in the order
    [ks]. *)
Definition propertyOrder (ks : list string) : list string :=
  JS.keys (List.map (fun k => (k, tt)) ks).

(** The object whose property [k], for [k] in [ks], holds the elements of [l]
    that [iteratee] sends to [k]. *)
Definition buckets (A : Type) (iteratee : A -> string) (l : list A)
           (ks : list string) : JS.object (list A) :=
  List.map (fun k => (k, filter (fun x => String.eqb (iteratee x) k) l)) ks.

Definition isIncomeGroup (g : NotificationGroup.t) : bool :=
  match type g with income => true | normal => false end.

Section Vocabulary.

Variable toDateString : Z -> string.

(** The records of [l] created on [day]. *)
Definition onDay (day : string) (l : list Notification) : list Notification :=
  filter (fun n => String.eqb (dayOf toDateString n) day) l.

(** The records of [l] filed under the contract key [k]. *)
Definition underKey (k : string) (l : list Notification) : list Notification :=
  filter (fun n => String.eqb (contractKey n) k) l.

Definition incomeOf (l : list Notification) : list Notification :=
  filter isIncome l.

Definition normalOf (l : list Notification) : list Notification :=
  filter (fun n => negb (isIncome n)) l.

(** The income group of a day, if the day has income records. *)
Definition incomeGroupOf (day : string) (incomeNotifications : list Notification)
  : list NotificationGroup.t :=
  match incomeNotifications with
  | first :: _ =>
      [ {| notifications := incomeNotifications;
           groupedById := String.append "income" day;
           NotificationGroup.isSeen := isSeen first;
           timePeriod := day;
           type := income |} ]
  | [] => []
  end.

(** The normal groups of a day. *)
Definition normalGroupsOf (day : string) (normalNotifications : list Notification)
  : list NotificationGroup.t :=
  Lodash.map (Lodash.groupBy normalNotifications contractKey)
             (notificationGroupOf day).

(** What one run of the [forEach] callback appends. *)
Definition groupsOfDay (day : string) (ns : list Notification)
  : list NotificationGroup.t :=
  incomeGroupOf day (incomeOf ns) ++ normalGroupsOf day (normalOf ns).

(** Every group is either the income group of its day or the group of one
    contract key of its day. *)
Inductive groupOrigin (l : list Notification) (g : NotificationGroup.t) : Prop :=
| fromIncome (day : string) (first : Notification) (rest : list Notification) :
    incomeOf (onDay day l) = first :: rest ->
    g = {| notifications := first :: rest;
           groupedById := String.append "income" day;
           NotificationGroup.isSeen := isSeen first;
           timePeriod := day;
           type := income |} ->
    groupOrigin l g
| fromContract (day k : string) (member : Notification) :
    In member (underKey k (normalOf (onDay day l))) ->
    g = notificationGroupOf day (underKey k (normalOf (onDay day l))) k ->
    groupOrigin l g.

End Vocabulary.

(** ** Statements *)

(** What identifies a group in the feed: its day, its category and its key. *)
Definition label (g : NotificationGroup.t)
  : string * NotificationGroup.kind * string :=
  (timePeriod g, type g, groupedById g).

(** The record's [sourceType] is one of the five income tags. *)
Definition hasIncomeSourceType (n : Notification) : Prop :=
  exists s, sourceType n = Some s
            /\ In s ["bonus"; "tip"; "loan"; "betting_streak_bonus"; "tip_and_like"].

(** All members carry the same [sourceContractId], or all lack one. *)
Definition sameContract (g : NotificationGroup.t) : Prop :=
  forall n m, In n (notifications g) -> In m (notifications g) ->
              sourceContractId n = sourceContractId m.

(** Newest first. *)
Definition newestFirst (members : list Notification) : Prop :=
  StronglySorted (fun a b => createdTime b <= createdTime a) members.

(** The records created at time [t], in list order. *)
Definition createdAt (t : Z) (members : list Notification) : list Notification :=
  filter (fun n => createdTime n =? t) members.

(** Array-index keys by ascending value. *)
Definition compareKeys (a b : string) : Z :=
  match JS.arrayIndex a, JS.arrayIndex b with
  | Some i, Some j => Z.of_N i - Z.of_N j
  | _, _ => 0
  end.

(** Both keys are array indices and the first is not above the second. *)
Definition indexLe (a b : string) : Prop :=
  match JS.arrayIndex a, JS.arrayIndex b with
  | Some i, Some j => (i <= j)%N
  | _, _ => False
  end.

(** Array-index keys first, by ascending value, then the other keys as
    they come. *)
Definition indicesThenNames (ks : list string) : list string :=
  JS.sort compareKeys (filter JS.isArrayIndex ks)
    ++ filter (fun k => negb (JS.isArrayIndex k)) ks.

Section Statements.

Variable toDateString : Z -> string.

(** The records of [l] that end up under the group [g]'s day and key, in
    input order. *)
Definition bucketOf (l : list Notification) (g : NotificationGroup.t)
  : list Notification :=
  underKey (groupedById g) (normalOf (onDay toDateString (timePeriod g) l)).

(** The labels of the feed when days come in order of first appearance,
    the income group of a day comes first, and the contract keys of a day,
    taken in order of first appearance, are arranged by [keyOrder]. *)
Definition labelsInOrder (keyOrder : list string -> list string)
           (l : list Notification)
  : list (string * NotificationGroup.kind * string) :=
  flat_map
    (fun day =>
       (match incomeOf (onDay toDateString day l) with
        | _ :: _ => [(day, income, String.append "income" day)]
        | [] => []
        end)
       ++ List.map (fun k => (day, normal, k))
            (keyOrder
               (firstOccurrences
                  (List.map contractKey
                     (normalOf (onDay toDateString day l))))))
    (firstOccurrences (List.map (dayOf toDateString) l)).

(** The labels one day contributes. *)
Definition labelsOfDay (day : string) (ns : list Notification)
  : list (string * NotificationGroup.kind * string) :=
  (match incomeOf ns with
   | _ :: _ => [(day, income, String.append "income" day)]
   | [] => []
   end)
  ++ List.map (fun k => (day, normal, k))
       (propertyOrder (firstOccurrences (List.map contractKey (normalOf ns)))).

(** The normal records of [n]'s day that lack a contract id all sit in one
    normal group of that day, the only group holding [n], whose key is
    [key]. *)
Definition collapsedUnder (key : string) (l : list Notification)
           (n : Notification) : Prop :=
  exists g,
    In g (groupNotifications toDateString l)
    /\ type g = normal
    /\ timePeriod g = dayOf toDateString n
    /\ groupedById g = key
    /\ (forall m, In m l -> dayOf toDateString m = dayOf toDateString n ->
                  isIncome m = false -> sourceContractId m = None ->
                  In m (notifications g))
    /\ (forall g', In g' (groupNotifications toDateString l) ->
                   In n (notifications g') -> g' = g).

End Statements.

(** ** Sample feeds *)

Definition sampleFeed : list Notification :=
  [ mkNotification "a" 100 true (Some "comment") (Some "m2");
    mkNotification "b" 300 false (Some "tip") (Some "m1");
    mkNotification "c" 200 true (Some "comment") (Some "m1");
    mkNotification "d" 86400100 true (Some "comment") (Some "m1");
    mkNotification "e" 250 false None None;
    mkNotification "g" 350 true (Some "loan") None;
    mkNotification "h" 100 false (Some "comment") (Some "m2");
    mkNotification "i" 150 false (Some "comment") (Some "m2") ].

(** The group of contract [m2] on the first day of [sampleFeed]. *)
Definition sampleNormalGroup : NotificationGroup.t :=
  {| notifications :=
       [ mkNotification "i" 150 false (Some "comment") (Some "m2");
         mkNotification "a" 100 true (Some "comment") (Some "m2");
         mkNotification "h" 100 false (Some "comment") (Some "m2") ];
     groupedById := "m2";
     NotificationGroup.isSeen := true;
     timePeriod := "Thu Jan 01 1970";
     type := normal |}.

(** The same contract on two days. *)
Definition twoDaysFeed : list Notification :=
  [ mkNotification "a" 0 true (Some "comment") (Some "m1");
    mkNotification "b" 86400000 true (Some "comment") (Some "m1") ].

Definition noContract : Notification :=
  mkNotification "e" 250 false None None.

Definition undefinedContract : Notification :=
  mkNotification "f" 260 false None (Some "undefined").

(** Two contracts whose ids are array indices, the larger one first. *)
Definition numericContractsFeed : list Notification :=
  [ mkNotification "a" 100 true (Some "comment") (Some "2");
    mkNotification "c" 200 true (Some "comment") (Some "1") ].


(** ** The hooks built on [groupNotifications]

    [useNotifications] reads the user's notifications from a store that is
    not part of these files; it yields [undefined] ([None]) until the
    first snapshot has arrived.  [useMemo] only caches, so each hook is a
    function of that value. *)

(** [notifications.filter((n) => !n.isSeen)] *)
Definition unseenOf (notifications : list Notification) : list Notification :=
  filter (fun n => negb (isSeen n)) notifications.

Definition useUnseenNotifications (notifications : option (list Notification))
  : option (list Notification) :=
  match notifications with
  | Some ns => Some (unseenOf ns)
  | None => None
  end.

Section Hooks.

Variable toDateString : Z -> string.

Definition useGroupedNotifications (notifications : option (list Notification))
  : option (list NotificationGroup.t) :=
  match notifications with
  | Some ns => Some (groupNotifications toDateString ns)
  | None => None
  end.

Definition useUnseenGroupedNotification
           (notifications : option (list Notification))
  : option (list NotificationGroup.t) :=
  let notifications := useUnseenNotifications notifications in
  match notifications with
  | Some ns => Some (groupNotifications toDateString ns)
  | None => None
  end.

End Hooks.

(** ** [createSupabaseClient]

    The environment, [isProd()] and the two configurations are the inputs;
    [createClient(url, key)] is kept as the pair of its arguments.  A
    [throw] is the outcome [Thrown]. *)

Module Supabase.

Record ProcessEnv := {
  SUPABASE_URL : option string;
  SUPABASE_KEY : option string
}.

Record EnvConfig := {
  supabaseUrl : option string
}.

Record Client := {
  clientUrl : string;
  clientKey : string
}.

Inductive outcome :=
| Returned (client : Client)
| Thrown (message : string).

Definition noUrl : string :=
  "Can't connect to Supabase; no process.env.SUPABASE_URL and no supabaseUrl in config.".

Definition noKey : string :=
  "Can't connect to Supabase; no process.env.SUPABASE_KEY.".

Definition createSupabaseClient (env : ProcessEnv) (isProd : bool)
           (PROD_CONFIG DEV_CONFIG : EnvConfig) : outcome :=
  let url :=
    match SUPABASE_URL env with
    | Some u => Some u
    | None => if isProd then supabaseUrl PROD_CONFIG
              else supabaseUrl DEV_CONFIG
    end in
  match url with
  | None | Some EmptyString => Thrown noUrl
  | Some url =>
      let key := SUPABASE_KEY env in
      match key with
      | None | Some EmptyString => Thrown noKey
      | Some key => Returned {| clientUrl := url; clientKey := key |}
      end
  end.

End Supabase.

(** ** The query of the omni search ([Results])

    The sigils are ASCII, so a query that starts with one starts with a
    single code unit and [charAt(0)] and [slice(1)] split it after its first
    character. *)

Module OmniSearch.

(** [query.match(/^(%|#|@)/)], as a truth value *)
Definition matchesSigil (query : string) : bool :=
  match query with
  | String c _ =>
      Ascii.eqb c "%"%char || Ascii.eqb c "#"%char || Ascii.eqb c "@"%char
  | EmptyString => false
  end.

(** [query.charAt(0)] *)
Definition charAt0 (query : string) : string :=
  match query with
  | String c _ => String c EmptyString
  | EmptyString => EmptyString
  end.

(** [query.slice(1)] *)
Definition slice1 (query : string) : string :=
  match query with
  | String _ rest => rest
  | EmptyString => EmptyString
  end.

(** A string is truthy when it is not empty. *)
Definition truthy (s : string) : bool :=
  match s with
  | EmptyString => false
  | String _ _ => true
  end.

Definition prefix (query : string) : string :=
  if matchesSigil query then charAt0 query else "".

Definition search (query : string) : string :=
  if truthy (prefix query) then slice1 query else query.

Definition userHitLimit (query : string) : Z :=
  if negb (truthy (prefix query)) then 2
  else if String.eqb (prefix query) "@" then 25 else 0.

Definition groupHitLimit (query : string) : Z :=
  if negb (truthy (prefix query)) then 2
  else if String.eqb (prefix query) "#" then 25 else 0.

Definition marketHitLimit (query : string) : Z :=
  if negb (truthy (prefix query)) then 20
  else if String.eqb (prefix query) "%" then 25 else 0.

End OmniSearch.

(** ** More sample data *)

Definition unseenGroup : NotificationGroup.t :=
  {| notifications :=
       [ mkNotification "i" 150 false (Some "comment") (Some "m2");
         mkNotification "h" 100 false (Some "comment") (Some "m2") ];
     groupedById := "m2";
     NotificationGroup.isSeen := true;
     timePeriod := "Thu Jan 01 1970";
     type := normal |}.

(** A tip, and a comment on a contract whose id is the key of the day's
    income group. *)
Definition incomeKeyFeed : list Notification :=
  [ mkNotification "t" 100 true (Some "tip") None;
    mkNotification "c" 200 true (Some "comment") (Some "incomeThu Jan 01 1970") ].

(** One day with two normal records without a contract id, a record with
    one, and an income record without one. *)
Definition contractlessFeed : list Notification :=
  [ mkNotification "e" 250 false None None;
    mkNotification "y" 260 true (Some "comment") (Some "m1");
    mkNotification "z" 300 true (Some "comment") None;
    mkNotification "w" 350 true (Some "loan") None ].

Definition secondDayFeed : list Notification :=
  [ mkNotification "p" 86400000 true (Some "comment") (Some "m1");
    mkNotification "q" 86400500 false (Some "tip") None ].

(** * Properties *)

(** ** The comparator sort *)

Section SortFacts.

Variable A : Type.
Variable compareFn : A -> A -> Z.

Lemma insert_perm (x : A) (l : list A) :
  Permutation (JS.insert compareFn x l) (x :: l).
Proof.
  induction l as [|y l IH]; simpl; [reflexivity|].
  destruct (compareFn x y <=? 0); [reflexivity|].
  rewrite IH. apply perm_swap.
Qed.

Lemma sort_perm (l : list A) : Permutation (JS.sort compareFn l) l.
Proof.
  induction l as [|x l IH]; simpl; [reflexivity|].
  rewrite insert_perm. now apply perm_skip.
Qed.

Lemma sort_In (l : list A) (x : A) : In x (JS.sort compareFn l) <-> In x l.
Proof.
  split; apply Permutation_in; [|symmetry]; apply sort_perm.
Qed.

Lemma sort_length (l : list A) :
  List.length (JS.sort compareFn l) = List.length l.
Proof. apply Permutation_length, sort_perm. Qed.

(** Stability: a class of elements the comparator never puts in the wrong
    order comes out of the sort in the order it went in. *)
Lemma insert_filter (P : A -> bool) (x : A) (l : list A) :
  (forall y, P x = true -> P y = true -> compareFn x y <= 0) ->
  filter P (JS.insert compareFn x l) = filter P (x :: l).
Proof.
  intros Hord. induction l as [|y l IH]; [reflexivity|].
  simpl. destruct (Z.leb_spec (compareFn x y) 0) as [Hle|Hgt]; [reflexivity|].
  simpl. simpl in IH. rewrite IH.
  destruct (P x) eqn:Px, (P y) eqn:Py; try reflexivity.
  specialize (Hord y eq_refl Py). lia.
Qed.

Lemma sort_filter (P : A -> bool) (l : list A) :
  (forall x y, P x = true -> P y = true -> compareFn x y <= 0) ->
  filter P (JS.sort compareFn l) = filter P l.
Proof.
  intros Hord. induction l as [|x l IH]; [reflexivity|].
  simpl JS.sort. rewrite insert_filter by (intros; now apply Hord).
  simpl. now rewrite IH.
Qed.

(** On a class [Q] of elements that the comparator orders consistently,
    the result is sorted. *)
Variable Q : A -> Prop.
Hypothesis compare_trans :
  forall x y z, Q x -> Q y -> Q z ->
                compareFn x y <= 0 -> compareFn y z <= 0 -> compareFn x z <= 0.
Hypothesis compare_total :
  forall x y, Q x -> Q y -> 0 < compareFn x y -> compareFn y x <= 0.

Lemma insert_sorted (x : A) (l : list A) :
  Q x -> Forall Q l ->
  StronglySorted (fun a b => compareFn a b <= 0) l ->
  StronglySorted (fun a b => compareFn a b <= 0) (JS.insert compareFn x l).
Proof.
  intros Qx HQ Hs. induction Hs as [|y l Hs IH Hy]; simpl.
  - constructor; constructor.
  - apply Forall_cons_iff in HQ. destruct HQ as [Qy HQ].
    rewrite Forall_forall in HQ, Hy.
    destruct (Z.leb_spec (compareFn x y) 0) as [Hle|Hgt].
    + constructor; [now constructor; [|apply Forall_forall]|].
      constructor; [assumption|].
      apply Forall_forall. intros z Hz.
      apply (compare_trans Qx Qy (HQ z Hz) Hle (Hy z Hz)).
    + constructor; [apply IH; now apply Forall_forall|].
      apply Forall_forall. intros z Hz.
      apply (Permutation_in _ (insert_perm x l)) in Hz.
      destruct Hz as [<-|Hz]; auto.
Qed.

Lemma sort_sorted (l : list A) :
  Forall Q l ->
  StronglySorted (fun a b => compareFn a b <= 0) (JS.sort compareFn l).
Proof.
  induction 1 as [|x l Qx HQ IH]; simpl; [constructor|].
  apply insert_sorted; [assumption| |assumption].
  apply (Permutation_Forall (Permutation_sym (sort_perm l)) HQ).
Qed.

End SortFacts.

Lemma sort_map (A B : Type) (h : A -> B) (cmpA : A -> A -> Z)
      (cmpB : B -> B -> Z) (l : list A) :
  (forall a b, cmpB (h a) (h b) = cmpA a b) ->
  JS.sort cmpB (List.map h l) = List.map h (JS.sort cmpA l).
Proof.
  intros Hcmp.
  assert (Hins : forall x s, JS.insert cmpB (h x) (List.map h s)
                             = List.map h (JS.insert cmpA x s)).
  { intros x s. induction s as [|y s IH]; [reflexivity|].
    simpl. rewrite Hcmp. destruct (cmpA x y <=? 0); [reflexivity|].
    simpl. now rewrite IH. }
  induction l as [|x l IH]; [reflexivity|].
  simpl. now rewrite IH, Hins.
Qed.

(** ** Lists *)

Lemma filter_map_comm (A B : Type) (h : A -> B) (P : B -> bool) (l : list A) :
  filter P (List.map h l) = List.map h (filter (fun a => P (h a)) l).
Proof.
  induction l as [|a l IH]; [reflexivity|].
  simpl. destruct (P (h a)); simpl; now rewrite IH.
Qed.

Lemma filter_split_perm (A : Type) (P : A -> bool) (l : list A) :
  Permutation (filter P l ++ filter (fun a => negb (P a)) l) l.
Proof.
  induction l as [|a l IH]; [reflexivity|].
  simpl. destruct (P a); simpl.
  - now apply perm_skip.
  - symmetry. apply Permutation_cons_app. now symmetry.
Qed.

Lemma filter_none (A : Type) (P : A -> bool) (l : list A) :
  (forall a, In a l -> P a = false) -> filter P l = [].
Proof.
  intros H. induction l as [|a l IH]; [reflexivity|].
  simpl. rewrite (H a) by now left. apply IH. intros b Hb. apply H. now right.
Qed.

Lemma filter_all (A : Type) (P : A -> bool) (l : list A) :
  (forall a, In a l -> P a = true) -> filter P l = l.
Proof.
  intros H. induction l as [|a l IH]; [reflexivity|].
  simpl. rewrite (H a) by now left. f_equal. apply IH. intros b Hb.
  apply H. now right.
Qed.

Lemma fold_left_append (A B : Type) (F : A -> list B) (ks : list A)
      (acc : list B) :
  fold_left (fun acc k => acc ++ F k) ks acc = acc ++ flat_map F ks.
Proof.
  revert acc. induction ks as [|k ks IH]; intros acc; simpl.
  - now rewrite app_nil_r.
  - now rewrite IH, app_assoc.
Qed.

Lemma flat_map_perm (A B : Type) (F : A -> list B) (l l' : list A) :
  Permutation l l' -> Permutation (flat_map F l) (flat_map F l').
Proof.
  induction 1; simpl.
  - reflexivity.
  - now apply Permutation_app_head.
  - rewrite !app_assoc. apply Permutation_app_tail, Permutation_app_comm.
  - etransitivity; eassumption.
Qed.

(** Of a family indexed by distinct keys, a filter that only keeps elements
    of the member at [d] sees that member alone. *)
Lemma filter_flat_map_single (A B : Type) (F : A -> list B) (P : B -> bool)
      (ks : list A) (d : A) :
  NoDup ks -> In d ks ->
  (forall k, In k ks -> k <> d -> filter P (F k) = []) ->
  filter P (flat_map F ks) = filter P (F d).
Proof.
  induction 1 as [|k ks Hk Hnd IH]; intros Hin Hother; [destruct Hin|].
  simpl. rewrite filter_app.
  destruct Hin as [->|Hin].
  - rewrite (filter_none P (flat_map F ks)); [apply app_nil_r|].
    intros b Hb. apply in_flat_map in Hb. destruct Hb as [k [Hk' Hb]].
    assert (Hnil : filter P (F k) = []).
    { apply Hother; [now right|]. intros ->. contradiction. }
    destruct (P b) eqn:Pb; [|reflexivity].
    assert (Hf : In b (filter P (F k))) by (apply filter_In; auto).
    rewrite Hnil in Hf. destruct Hf.
  - rewrite Hother; [|now left|intros ->; contradiction].
    simpl. apply IH; [assumption|]. intros k' Hk' Hne.
    apply Hother; [now right|assumption].
Qed.

(** ** First occurrences *)

Lemma firstOccurrences_In (ks : list string) (k : string) :
  In k (firstOccurrences ks) <-> In k ks.
Proof.
  induction ks as [|a ks IH]; simpl; [tauto|].
  rewrite filter_In, IH.
  destruct (String.eqb_spec k a) as [->|Hne]; simpl; [tauto|].
  split; [tauto|]. intros [->|H]; [congruence|tauto].
Qed.

Lemma firstOccurrences_NoDup (ks : list string) : NoDup (firstOccurrences ks).
Proof.
  induction ks as [|a ks IH]; simpl; constructor.
  - rewrite filter_In, String.eqb_refl. intros [_ H]. discriminate.
  - now apply NoDup_filter.
Qed.

Lemma firstOccurrences_snoc (ks : list string) (k : string) :
  firstOccurrences (ks ++ [k])
  = firstOccurrences ks ++ (if existsb (String.eqb k) ks then [] else [k]).
Proof.
  induction ks as [|a ks IH]; [reflexivity|].
  simpl. rewrite IH, filter_app. f_equal. f_equal.
  destruct (existsb (String.eqb k) ks); simpl.
  - now rewrite orb_true_r.
  - rewrite orb_false_r. now destruct (String.eqb k a).
Qed.

Lemma existsb_firstOccurrences (ks : list string) (k : string) :
  existsb (String.eqb k) (firstOccurrences ks) = existsb (String.eqb k) ks.
Proof.
  apply eq_true_iff_eq. rewrite !existsb_exists.
  split; intros [x [Hx He]]; exists x; split; try assumption;
    now apply firstOccurrences_In.
Qed.

Lemma existsb_eqb_In (ks : list string) (k : string) :
  existsb (String.eqb k) ks = true <-> In k ks.
Proof.
  rewrite existsb_exists. split.
  - intros [x [Hx He]]. apply String.eqb_eq in He. now subst.
  - intros H. exists k. split; [assumption|apply String.eqb_refl].
Qed.

(** ** Objects *)

Section ObjectFacts.

Variable V : Type.

Lemma ownProperties_perm (o : JS.object V) :
  Permutation (JS.ownProperties o) o.
Proof.
  unfold JS.ownProperties. rewrite sort_perm. apply filter_split_perm.
Qed.

Lemma ownProperties_image (W : Type) (h : string -> W) (ks : list string) :
  JS.ownProperties (List.map (fun k => (k, h k)) ks)
  = List.map (fun k => (k, h k)) (propertyOrder ks).
Proof.
  unfold propertyOrder, JS.keys, JS.ownProperties.
  rewrite !filter_map_comm. simpl.
  rewrite (sort_map (fun k => (k, h k)) (fun a b => JS.compareIndex (a, tt) (b, tt)))
    by reflexivity.
  rewrite (sort_map (fun k => (k, tt)) (fun a b => JS.compareIndex (a, tt) (b, tt))
                    (@JS.compareIndex unit)) by reflexivity.
  rewrite <- !map_app, !map_map. reflexivity.
Qed.

Lemma get_image (h : string -> V) (ks : list string) (k : string) :
  In k ks -> JS.get (List.map (fun k => (k, h k)) ks) k = Some (h k).
Proof.
  induction ks as [|a ks IH]; intros Hin; [destruct Hin|].
  simpl. destruct (String.eqb_spec a k) as [->|Hne]; [reflexivity|].
  destruct Hin as [->|Hin]; [congruence|now apply IH].
Qed.

End ObjectFacts.

Lemma propertyOrder_perm (ks : list string) :
  Permutation (propertyOrder ks) ks.
Proof.
  unfold propertyOrder, JS.keys.
  rewrite ownProperties_perm, map_map. simpl. now rewrite map_id.
Qed.

Lemma propertyOrder_In (ks : list string) (k : string) :
  In k (propertyOrder ks) <-> In k ks.
Proof.
  split; apply Permutation_in; [|symmetry]; apply propertyOrder_perm.
Qed.

Lemma propertyOrder_NoDup (ks : list string) :
  NoDup ks -> NoDup (propertyOrder ks).
Proof.
  apply Permutation_NoDup. symmetry. apply propertyOrder_perm.
Qed.

(** Keys that are not array indices stay in creation order. *)
Lemma propertyOrder_names (ks : list string) :
  (forall k, In k ks -> JS.arrayIndex k = None) -> propertyOrder ks = ks.
Proof.
  intros H. unfold propertyOrder, JS.keys, JS.ownProperties.
  rewrite !filter_map_comm. simpl.
  rewrite (filter_none (fun k => JS.isArrayIndex k)),
          (filter_all (fun k => negb (JS.isArrayIndex k))).
  - simpl. rewrite map_map. simpl. apply map_id.
  - intros k Hk. unfold JS.isArrayIndex. now rewrite (H k Hk).
  - intros k Hk. unfold JS.isArrayIndex. now rewrite (H k Hk).
Qed.

(** ** [groupBy] *)

Section GroupByFacts.

Variable A : Type.
Variable iteratee : A -> string.

Lemma assign_buckets (l : list A) (x : A) (ks : list string) :
  NoDup ks ->
  (~ In (iteratee x) ks ->
   filter (fun y => String.eqb (iteratee y) (iteratee x)) l = []) ->
  Lodash.assign (buckets iteratee l ks) (iteratee x) x
  = buckets iteratee (l ++ [x])
      (ks ++ (if existsb (String.eqb (iteratee x)) ks then [] else [iteratee x])).
Proof.
  unfold buckets. induction 1 as [|a ks Ha Hnd IH]; intros Hnew.
  - simpl. rewrite filter_app, Hnew by tauto. simpl.
    now rewrite String.eqb_refl.
  - simpl. rewrite (String.eqb_sym (iteratee x) a).
    destruct (String.eqb_spec a (iteratee x)) as [Heq|Hne]; simpl.
    + rewrite app_nil_r, filter_app. simpl.
      rewrite (String.eqb_sym (iteratee x) a), Heq, String.eqb_refl.
      f_equal. apply map_ext_in. intros k Hk.
      rewrite filter_app. simpl.
      destruct (String.eqb_spec (iteratee x) k) as [Hk'|_];
        [|now rewrite app_nil_r].
      subst a. rewrite Hk' in Ha. contradiction.
    + rewrite IH by (intros Hn; apply Hnew; simpl; tauto).
      rewrite filter_app. simpl.
      destruct (String.eqb_spec (iteratee x) a) as [Hk'|_]; [congruence|].
      now rewrite app_nil_r.
Qed.

(** [groupBy] creates one property per key, in the order the keys first
    appear, holding the elements with that key in collection order. *)
Lemma groupBy_buckets (l : list A) :
  Lodash.groupBy l iteratee
  = buckets iteratee l (firstOccurrences (List.map iteratee l)).
Proof.
  unfold Lodash.groupBy.
  induction l as [|x l IH] using rev_ind; [reflexivity|].
  rewrite fold_left_app. simpl. rewrite IH.
  rewrite assign_buckets.
  - rewrite map_app. cbn [List.map].
    now rewrite firstOccurrences_snoc, existsb_firstOccurrences.
  - apply firstOccurrences_NoDup.
  - intros Hnew. apply filter_none. intros y Hy.
    destruct (String.eqb_spec (iteratee y) (iteratee x)) as [Heq|]; [|reflexivity].
    exfalso. apply Hnew. apply firstOccurrences_In. rewrite <- Heq.
    now apply in_map.
Qed.

End GroupByFacts.

(** ** The shape of the result *)

Section Shape.

Variable toDateString : Z -> string.

Lemma keys_buckets (A : Type) (f : A -> string) (l : list A)
      (ks : list string) :
  JS.keys (buckets f l ks) = propertyOrder ks.
Proof.
  unfold JS.keys, buckets. rewrite ownProperties_image, map_map.
  apply map_id.
Qed.

Lemma normalGroupsOf_shape (day : string) (normals : list Notification) :
  normalGroupsOf day normals
  = List.map (fun k => notificationGroupOf day (underKey k normals) k)
      (propertyOrder (firstOccurrences (List.map contractKey normals))).
Proof.
  unfold normalGroupsOf, Lodash.map. rewrite groupBy_buckets.
  unfold buckets. now rewrite ownProperties_image, map_map.
Qed.

Lemma forEachDay_append (o : JS.object (list Notification))
      (acc : list NotificationGroup.t) (day : string) :
  forEachDay o acc day
  = acc ++ groupsOfDay day
             (match JS.get o day with Some ns => ns | None => [] end).
Proof.
  unfold forEachDay, groupsOfDay, Lodash.partition, incomeGroupOf,
    normalGroupsOf, incomeOf, normalOf.
  destruct (filter isIncome _); [reflexivity|].
  now rewrite app_assoc.
Qed.

Lemma fold_forEachDay (o : JS.object (list Notification))
      (ks : list string) (acc : list NotificationGroup.t) :
  fold_left (forEachDay o) ks acc
  = acc ++ flat_map
             (fun day => groupsOfDay day
                (match JS.get o day with Some ns => ns | None => [] end)) ks.
Proof.
  revert acc. induction ks as [|k ks IH]; intros acc; simpl.
  - now rewrite app_nil_r.
  - now rewrite IH, forEachDay_append, app_assoc.
Qed.

(** The days in the order the [forEach] visits them. *)
Lemma groupNotifications_shape (l : list Notification) :
  groupNotifications toDateString l
  = flat_map (fun day => groupsOfDay day (onDay toDateString day l))
      (propertyOrder (firstOccurrences (List.map (dayOf toDateString) l))).
Proof.
  unfold groupNotifications.
  rewrite groupBy_buckets, keys_buckets, fold_forEachDay. simpl.
  rewrite !flat_map_concat_map. f_equal. apply map_ext_in.
  intros day Hday. apply (proj1 (propertyOrder_In _ _)) in Hday.
  unfold buckets. now rewrite get_image.
Qed.

Lemma In_groupNotifications (l : list Notification) (g : NotificationGroup.t) :
  In g (groupNotifications toDateString l)
  <-> exists day, In day (List.map (dayOf toDateString) l) /\ In g (groupsOfDay day (onDay toDateString day l)).
Proof.
  rewrite groupNotifications_shape, in_flat_map.
  split; intros [day [Hd Hg]]; exists day; split; try assumption.
  - now apply firstOccurrences_In, (proj1 (propertyOrder_In _ _)).
  - now apply propertyOrder_In, firstOccurrences_In.
Qed.

Lemma In_normalGroupsOf (day : string) (normals : list Notification)
      (g : NotificationGroup.t) :
  In g (normalGroupsOf day normals)
  <-> exists k, In k (List.map contractKey normals)
                /\ g = notificationGroupOf day (underKey k normals) k.
Proof.
  rewrite normalGroupsOf_shape, in_map_iff.
  split; intros [k H]; exists k.
  - destruct H as [<- Hk]. split; [|reflexivity].
    now apply firstOccurrences_In, (proj1 (propertyOrder_In _ _)).
  - destruct H as [Hk ->]. split; [reflexivity|].
    now apply propertyOrder_In, firstOccurrences_In.
Qed.

Lemma groupNotifications_origin (l : list Notification) (g : NotificationGroup.t) :
  In g (groupNotifications toDateString l) -> groupOrigin toDateString l g.
Proof.
  intros Hg. apply In_groupNotifications in Hg.
  destruct Hg as [day [_ Hg]]. unfold groupsOfDay in Hg.
  apply in_app_or in Hg. destruct Hg as [Hg|Hg].
  - unfold incomeGroupOf in Hg.
    destruct (incomeOf (onDay toDateString day l)) as [|first rest] eqn:E; [destruct Hg|].
    destruct Hg as [<-|[]]. eapply fromIncome; [exact E|reflexivity].
  - apply In_normalGroupsOf in Hg. destruct Hg as [k [Hk ->]].
    apply in_map_iff in Hk. destruct Hk as [member [Hkey Hm]].
    eapply fromContract with (member := member); [|reflexivity].
    unfold underKey. apply filter_In. split; [assumption|].
    now apply String.eqb_eq.
Qed.

End Shape.

(** ** Partition *)

Section Partition.

Variable toDateString : Z -> string.

Lemma flat_map_perm_pointwise (A B : Type) (F G : A -> list B) (l : list A) :
  (forall a, Permutation (F a) (G a)) ->
  Permutation (flat_map F l) (flat_map G l).
Proof.
  intros H. induction l as [|a l IH]; simpl; [reflexivity|].
  now apply Permutation_app.
Qed.

Lemma flat_map_compose (A B C : Type) (F : A -> list B) (G : B -> list C)
      (l : list A) :
  flat_map G (flat_map F l) = flat_map (fun a => flat_map G (F a)) l.
Proof.
  induction l as [|a l IH]; simpl; [reflexivity|].
  now rewrite flat_map_app, IH.
Qed.

Lemma assign_perm (A : Type) (o : JS.object (list A)) (k : string) (x : A) :
  Permutation (flat_map snd (Lodash.assign o k x)) (x :: flat_map snd o).
Proof.
  induction o as [|[k' vs] o IH]; simpl; [reflexivity|].
  destruct (String.eqb k' k); simpl.
  - rewrite <- app_assoc. simpl. symmetry. apply Permutation_middle.
  - rewrite IH. symmetry. apply Permutation_middle.
Qed.

(** [groupBy] neither drops nor repeats an element of the collection. *)
Lemma groupBy_perm (A : Type) (f : A -> string) (l : list A) :
  Permutation (flat_map snd (Lodash.groupBy l f)) l.
Proof.
  unfold Lodash.groupBy.
  induction l as [|x l IH] using rev_ind; [reflexivity|].
  rewrite fold_left_app. simpl. rewrite assign_perm, IH.
  apply Permutation_cons_append.
Qed.

Lemma ownProperties_values_perm (A : Type) (f : A -> string) (l : list A) :
  Permutation (flat_map snd (JS.ownProperties (Lodash.groupBy l f))) l.
Proof.
  rewrite (flat_map_perm _ (ownProperties_perm _)). apply groupBy_perm.
Qed.

Lemma incomeGroupOf_members (day : string) (incomes : list Notification) :
  flat_map notifications (incomeGroupOf day incomes) = incomes.
Proof.
  destruct incomes; simpl; [reflexivity|]. now rewrite app_nil_r.
Qed.

Lemma normalGroupsOf_members (day : string) (normals : list Notification) :
  Permutation (flat_map notifications (normalGroupsOf day normals)) normals.
Proof.
  unfold normalGroupsOf, Lodash.map.
  rewrite flat_map_concat_map, map_map, <- flat_map_concat_map. simpl.
  rewrite (flat_map_perm_pointwise _ snd).
  - apply ownProperties_values_perm.
  - intros p. apply sort_perm.
Qed.

Lemma groupsOfDay_members (day : string) (ns : list Notification) :
  Permutation (flat_map notifications (groupsOfDay day ns)) ns.
Proof.
  unfold groupsOfDay.
  rewrite flat_map_app, incomeGroupOf_members, normalGroupsOf_members.
  apply filter_split_perm.
Qed.

(** C1.  The members of all the groups, taken together, are the input as a
    multiset: the concatenation of the groups' [notifications] is a
    permutation of the input list, so no record is dropped and none is
    repeated. *)
Theorem groupNotifications_partition (l : list Notification) :
  Permutation (flat_map notifications (groupNotifications toDateString l)) l.
Proof.
  rewrite groupNotifications_shape, flat_map_compose.
  rewrite (flat_map_perm_pointwise _ (fun day => onDay toDateString day l))
    by (intros day; apply groupsOfDay_members).
  rewrite (flat_map_perm _ (propertyOrder_perm _)).
  rewrite <- (groupBy_perm (dayOf toDateString) l) at 2.
  rewrite groupBy_buckets. unfold buckets, onDay.
  rewrite (flat_map_concat_map snd), map_map, <- flat_map_concat_map.
  reflexivity.
Qed.

End Partition.

(** ** Membership *)

Section Membership.

Variable toDateString : Z -> string.

Lemma isIncome_hasIncomeSourceType (n : Notification) :
  isIncome n = true <-> hasIncomeSourceType n.
Proof.
  unfold isIncome, hasIncomeSourceType, JS.includes, incomeSourceTypes.
  rewrite existsb_eqb_In. destruct (sourceType n) as [s|]; simpl.
  - split.
    + intros H. exists s. tauto.
    + intros [s' [E H]]. injection E as <-. tauto.
  - split.
    + intros H. repeat (destruct H as [H|H]; [discriminate|]). destruct H.
    + intros [s' [E _]]. discriminate.
Qed.

Lemma In_underKey (k : string) (l : list Notification) (n : Notification) :
  In n (underKey k l) <-> In n l /\ contractKey n = k.
Proof.
  unfold underKey. rewrite filter_In. now rewrite String.eqb_eq.
Qed.

Lemma In_normalOf (l : list Notification) (n : Notification) :
  In n (normalOf l) <-> In n l /\ isIncome n = false.
Proof.
  unfold normalOf. rewrite filter_In. now rewrite negb_true_iff.
Qed.

Lemma In_incomeOf (l : list Notification) (n : Notification) :
  In n (incomeOf l) <-> In n l /\ isIncome n = true.
Proof. unfold incomeOf. apply filter_In. Qed.

Lemma In_onDay (day : string) (l : list Notification) (n : Notification) :
  In n (onDay toDateString day l) <-> In n l /\ dayOf toDateString n = day.
Proof.
  unfold onDay. rewrite filter_In. now rewrite String.eqb_eq.
Qed.

(** The members of the group of a contract key are the normal records of
    the day filed under that key. *)
Lemma In_contract_group (day k : string) (l : list Notification)
      (n : Notification) :
  In n (notifications
          (notificationGroupOf day
             (underKey k (normalOf (onDay toDateString day l))) k))
  <-> In n l /\ dayOf toDateString n = day /\ isIncome n = false
      /\ contractKey n = k.
Proof.
  simpl. rewrite sort_In, In_underKey, In_normalOf, In_onDay. tauto.
Qed.

(** The group a normal record of the input is filed in. *)
Lemma normal_record_group (l : list Notification) (n : Notification) :
  In n l -> isIncome n = false ->
  In (notificationGroupOf (dayOf toDateString n)
        (underKey (contractKey n)
           (normalOf (onDay toDateString (dayOf toDateString n) l)))
        (contractKey n))
     (groupNotifications toDateString l).
Proof.
  intros Hn Hnormal. apply In_groupNotifications.
  exists (dayOf toDateString n). split; [now apply in_map|].
  unfold groupsOfDay. apply in_or_app. right.
  apply In_normalGroupsOf. exists (contractKey n). split; [|reflexivity].
  apply in_map. apply In_normalOf. split; [|assumption].
  now apply In_onDay.
Qed.

(** C5.  The [isSeen] flag of a normal group is [true] exactly when some
    member of the group has [isSeen = false]. *)
Theorem normal_group_unseen_rollup (l : list Notification)
        (g : NotificationGroup.t) :
  In g (groupNotifications toDateString l) ->
  type g = normal ->
  NotificationGroup.isSeen g = true
  <-> exists n, In n (notifications g) /\ isSeen n = false.
Proof.
  intros Hg Hnormal.
  destruct (groupNotifications_origin _ _ _ Hg) as [day first rest _ ->|day k member _ ->].
  - discriminate.
  - simpl. rewrite existsb_exists.
    split; intros [n [Hn Hseen]]; exists n; split; try assumption.
    + now apply negb_true_iff.
    + now apply negb_true_iff.
Qed.

(** C10.  No group of the result is empty. *)
Theorem groups_nonempty (l : list Notification) (g : NotificationGroup.t) :
  In g (groupNotifications toDateString l) ->
  notifications g <> [].
Proof.
  intros Hg.
  destruct (groupNotifications_origin _ _ _ Hg) as [day first rest _ ->|day k member Hm ->].
  - discriminate.
  - simpl. intros Hnil.
    apply (proj2 (sort_In byCreatedTimeDesc _ member)) in Hm.
    rewrite Hnil in Hm. destruct Hm.
Qed.

(** C7, amended.  All members of a normal group are filed under the same
    property key, the group's [groupedById]: the record's
    [sourceContractId], or the string "undefined" when it has none.  So
    among the members that do not carry the literal id "undefined", all
    share the same [sourceContractId] or all lack one. *)
Theorem normal_group_same_key (l : list Notification) (g : NotificationGroup.t) :
  In g (groupNotifications toDateString l) ->
  type g = normal ->
  (forall n, In n (notifications g) -> contractKey n = groupedById g)
  /\ (forall n m,
        In n (notifications g) -> In m (notifications g) ->
        sourceContractId n <> Some "undefined" ->
        sourceContractId m <> Some "undefined" ->
        sourceContractId n = sourceContractId m).
Proof.
  intros Hg Hnormal.
  destruct (groupNotifications_origin _ _ _ Hg) as [day first rest _ ->|day k member _ ->].
  - discriminate.
  - assert (Hkey : forall n,
               In n (notifications
                       (notificationGroupOf day
                          (underKey k (normalOf (onDay toDateString day l))) k)) ->
               contractKey n = k).
    { intros n Hn. apply In_contract_group in Hn. tauto. }
    split; [exact Hkey|].
    intros n m Hn Hm Hn' Hm'.
    apply Hkey in Hn. apply Hkey in Hm. rewrite <- Hm in Hn.
    unfold contractKey, JS.toPropertyKey in Hn.
    destruct (sourceContractId n), (sourceContractId m);
      subst; congruence.
Qed.

(** C9.  A record with one of the five income tags is only ever a member of
    an income group; a record with another tag, or with none, is only ever
    a member of a normal group, and it is a member of one. *)
Theorem income_classification (l : list Notification) :
  (forall g n, In g (groupNotifications toDateString l) ->
               In n (notifications g) ->
               hasIncomeSourceType n -> type g = income)
  /\ (forall g n, In g (groupNotifications toDateString l) ->
                  In n (notifications g) ->
                  ~ hasIncomeSourceType n -> type g = normal)
  /\ (forall n, In n l -> ~ hasIncomeSourceType n ->
                exists g, In g (groupNotifications toDateString l)
                          /\ type g = normal /\ In n (notifications g)).
Proof.
  assert (Hmember : forall g n,
             In g (groupNotifications toDateString l) ->
             In n (notifications g) ->
             isIncome n = match type g with income => true | normal => false end).
  { intros g n Hg Hn.
    destruct (groupNotifications_origin _ _ _ Hg) as [day first rest E ->|day k member _ ->].
    - change (In n (first :: rest)) in Hn.
      rewrite <- E in Hn. apply In_incomeOf in Hn.
      simpl. tauto.
    - apply In_contract_group in Hn. simpl. tauto. }
  split; [|split].
  - intros g n Hg Hn Htag. apply isIncome_hasIncomeSourceType in Htag.
    rewrite (Hmember g n Hg Hn) in Htag. now destruct (type g).
  - intros g n Hg Hn Htag. rewrite <- isIncome_hasIncomeSourceType in Htag.
    rewrite (Hmember g n Hg Hn) in Htag. destruct (type g); congruence.
  - intros n Hn Htag. rewrite <- isIncome_hasIncomeSourceType in Htag.
    apply not_true_is_false in Htag.
    eexists. split; [apply (normal_record_group l n Hn Htag)|].
    split; [reflexivity|]. apply In_contract_group. tauto.
Qed.

End Membership.

(** ** Order inside a normal group *)

Section MemberOrder.

Variable toDateString : Z -> string.

Lemma StronglySorted_weaken (A : Type) (Q : A -> Prop)
      (R R' : A -> A -> Prop) (l : list A) :
  (forall a b, Q a -> Q b -> R a b -> R' a b) ->
  Forall Q l -> StronglySorted R l -> StronglySorted R' l.
Proof.
  intros HR HQ. induction 1 as [|a l Hs IH Ha]; constructor.
  - apply IH. now apply Forall_cons_iff in HQ.
  - apply Forall_cons_iff in HQ. destruct HQ as [Qa HQ].
    rewrite Forall_forall in *. intros b Hb. apply HR; auto.
Qed.

Lemma sort_newestFirst (ns : list Notification) :
  newestFirst (JS.sort byCreatedTimeDesc ns).
Proof.
  unfold newestFirst.
  apply StronglySorted_weaken
    with (Q := fun _ => True) (R := fun a b => byCreatedTimeDesc a b <= 0).
  - unfold byCreatedTimeDesc. intros a b _ _. lia.
  - apply Forall_forall. trivial.
  - apply sort_sorted with (Q := fun _ => True);
      [unfold byCreatedTimeDesc; intros; lia ..|].
    apply Forall_forall. trivial.
Qed.

Lemma sort_createdAt (t : Z) (ns : list Notification) :
  createdAt t (JS.sort byCreatedTimeDesc ns) = createdAt t ns.
Proof.
  unfold createdAt. apply sort_filter.
  intros x y Hx Hy. apply Z.eqb_eq in Hx, Hy.
  unfold byCreatedTimeDesc. lia.
Qed.

(** C6.  The members of a normal group are the normal records of its day
    and key, newest first; records created at the same time keep the order
    they have in the input.  This holds for groups of any size, so for the
    groups with more than one member. *)
Theorem normal_group_newest_first (l : list Notification)
        (g : NotificationGroup.t) :
  In g (groupNotifications toDateString l) ->
  type g = normal ->
  Permutation (notifications g) (bucketOf toDateString l g)
  /\ newestFirst (notifications g)
  /\ forall t, createdAt t (notifications g)
               = createdAt t (bucketOf toDateString l g).
Proof.
  intros Hg Hnormal.
  destruct (groupNotifications_origin _ _ _ Hg) as [day first rest _ ->|day k member _ ->].
  - discriminate.
  - unfold bucketOf. simpl. split; [apply sort_perm|].
    split; [apply sort_newestFirst|]. intros t. apply sort_createdAt.
Qed.

End MemberOrder.

(** ** Groups of a day *)

Section Days.

Variable toDateString : Z -> string.

Lemma groupsOfDay_timePeriod (day : string) (ns : list Notification)
      (g : NotificationGroup.t) :
  In g (groupsOfDay day ns) -> timePeriod g = day.
Proof.
  unfold groupsOfDay. intros Hg. apply in_app_or in Hg.
  destruct Hg as [Hg|Hg].
  - unfold incomeGroupOf in Hg. destruct (incomeOf ns); [destruct Hg|].
    now destruct Hg as [<-|[]].
  - apply In_normalGroupsOf in Hg. now destruct Hg as [k [_ ->]].
Qed.

Lemma days_NoDup (l : list Notification) :
  NoDup (propertyOrder (firstOccurrences (List.map (dayOf toDateString) l))).
Proof. apply propertyOrder_NoDup, firstOccurrences_NoDup. Qed.

Lemma days_In (l : list Notification) (n : Notification) :
  In n l ->
  In (dayOf toDateString n)
     (propertyOrder (firstOccurrences (List.map (dayOf toDateString) l))).
Proof.
  intros Hn. apply propertyOrder_In, firstOccurrences_In. now apply in_map.
Qed.

(** C4.  A day with income records [first :: rest] (the income records of
    the day, in input order) has exactly one income group in the result;
    its members are [first :: rest] in that order, its key is "income"
    followed by the day, and its flag is the [isSeen] of [first]. *)
Theorem income_group_of_day (l : list Notification) (day : string)
        (first : Notification) (rest : list Notification) :
  incomeOf (onDay toDateString day l) = first :: rest ->
  filter (fun g => isIncomeGroup g && String.eqb (timePeriod g) day)
         (groupNotifications toDateString l)
  = [ {| notifications := first :: rest;
         groupedById := String.append "income" day;
         NotificationGroup.isSeen := isSeen first;
         timePeriod := day;
         type := income |} ].
Proof.
  intros E.
  assert (Hfirst : In first l /\ dayOf toDateString first = day).
  { assert (H : In first (incomeOf (onDay toDateString day l)))
      by (rewrite E; now left).
    apply In_incomeOf in H. destruct H as [H _].
    now apply In_onDay in H. }
  destruct Hfirst as [Hin Hday].
  rewrite groupNotifications_shape.
  rewrite (filter_flat_map_single _ _ (d := day)).
  - unfold groupsOfDay. rewrite filter_app.
    rewrite (filter_none _ (normalGroupsOf _ _)).
    + rewrite E. simpl. now rewrite String.eqb_refl.
    + intros g Hg. apply In_normalGroupsOf in Hg.
      now destruct Hg as [k [_ ->]].
  - apply days_NoDup.
  - rewrite <- Hday. now apply days_In.
  - intros k _ Hne. apply filter_none. intros g Hg.
    apply groupsOfDay_timePeriod in Hg. rewrite Hg.
    destruct (String.eqb_spec k day); [contradiction|apply andb_false_r].
Qed.

End Days.

(** ** Labels: keys and order *)

Section Labels.

Variable toDateString : Z -> string.

Lemma map_flat_map_comm (A B C : Type) (F : A -> list B) (h : B -> C)
      (l : list A) :
  List.map h (flat_map F l) = flat_map (fun a => List.map h (F a)) l.
Proof.
  induction l as [|a l IH]; simpl; [reflexivity|].
  now rewrite map_app, IH.
Qed.

Lemma NoDup_flat_map (A B : Type) (F : A -> list B) (ks : list A) :
  NoDup ks ->
  (forall k, In k ks -> NoDup (F k)) ->
  (forall k k' b, In k ks -> In k' ks -> In b (F k) -> In b (F k') -> k = k') ->
  NoDup (flat_map F ks).
Proof.
  induction 1 as [|k ks Hk Hnd IH]; intros Heach Hsep; simpl; [constructor|].
  apply NoDup_app.
  - apply Heach. now left.
  - apply IH.
    + intros k' Hk'. apply Heach. now right.
    + intros k1 k2 b H1 H2. apply Hsep; now right.
  - intros b Hb Hb'. apply in_flat_map in Hb'.
    destruct Hb' as [k' [Hk' Hb']].
    assert (k = k') by (apply (Hsep k k' b); simpl; auto).
    subst. contradiction.
Qed.


Lemma labels_groupsOfDay (day : string) (ns : list Notification) :
  List.map label (groupsOfDay day ns) = labelsOfDay day ns.
Proof.
  unfold groupsOfDay, labelsOfDay. rewrite map_app. f_equal.
  - unfold incomeGroupOf. now destruct (incomeOf ns).
  - now rewrite normalGroupsOf_shape, map_map.
Qed.

Lemma labels_shape (l : list Notification) :
  List.map label (groupNotifications toDateString l)
  = flat_map (fun day => labelsOfDay day (onDay toDateString day l))
      (propertyOrder (firstOccurrences (List.map (dayOf toDateString) l))).
Proof.
  rewrite groupNotifications_shape, map_flat_map_comm.
  apply flat_map_ext. intros day. apply labels_groupsOfDay.
Qed.

Lemma labelsOfDay_day (day : string) (ns : list Notification)
      (b : string * NotificationGroup.kind * string) :
  In b (labelsOfDay day ns) -> fst (fst b) = day.
Proof.
  unfold labelsOfDay. intros Hb. apply in_app_or in Hb.
  destruct Hb as [Hb|Hb].
  - destruct (incomeOf ns); [destruct Hb|]. now destruct Hb as [<-|[]].
  - apply in_map_iff in Hb. now destruct Hb as [k [<- _]].
Qed.

Lemma labelsOfDay_NoDup (day : string) (ns : list Notification) :
  NoDup (labelsOfDay day ns).
Proof.
  unfold labelsOfDay. apply NoDup_app.
  - destruct (incomeOf ns); repeat constructor. intros [].
  - apply NoDup_map_NoDup_ForallPairs.
    + intros x y _ _ H. now injection H.
    + apply propertyOrder_NoDup, firstOccurrences_NoDup.
  - intros b Hb Hb'. apply in_map_iff in Hb'. destruct Hb' as [k [<- _]].
    destruct (incomeOf ns); [destruct Hb|].
    destruct Hb as [Hb|[]]. discriminate.
Qed.

Lemma labels_NoDup (l : list Notification) :
  NoDup (List.map label (groupNotifications toDateString l)).
Proof.
  rewrite labels_shape. apply NoDup_flat_map.
  - apply days_NoDup.
  - intros day _. apply labelsOfDay_NoDup.
  - intros k k' b _ _ Hb Hb'.
    apply labelsOfDay_day in Hb, Hb'. congruence.
Qed.

Lemma filter_flat_map_comm (A B : Type) (F : A -> list B) (P : B -> bool)
      (l : list A) :
  filter P (flat_map F l) = flat_map (fun a => filter P (F a)) l.
Proof.
  induction l as [|a l IH]; simpl; [reflexivity|].
  now rewrite filter_app, IH.
Qed.

(** The keys of the income groups one day contributes. *)
Lemma income_keys_of_day (day : string) (ns : list Notification) :
  List.map groupedById (filter isIncomeGroup (groupsOfDay day ns))
  = match incomeOf ns with
    | _ :: _ => [String.append "income" day]
    | [] => []
    end.
Proof.
  unfold groupsOfDay. rewrite filter_app.
  rewrite (filter_none _ (normalGroupsOf day (normalOf ns))).
  - rewrite app_nil_r. unfold incomeGroupOf. now destruct (incomeOf ns).
  - intros g Hg. apply In_normalGroupsOf in Hg. now destruct Hg as [k [_ ->]].
Qed.

(** C2, amended.  The keys of the income groups are pairwise distinct
    across the whole result, and no two groups of the result have the same
    day, the same category and the same key, so the keys of the normal
    groups of one day are pairwise distinct.  The key of a normal group can
    repeat on another day and can be the key of an income group. *)
Theorem group_keys_distinct (l : list Notification) :
  NoDup (List.map groupedById
           (filter isIncomeGroup (groupNotifications toDateString l)))
  /\ NoDup (List.map label (groupNotifications toDateString l)).
Proof.
  split; [|apply labels_NoDup].
  rewrite groupNotifications_shape, filter_flat_map_comm, map_flat_map_comm.
  apply NoDup_flat_map.
  - apply days_NoDup.
  - intros day _. rewrite income_keys_of_day.
    destruct (incomeOf (onDay toDateString day l)); repeat constructor.
    intros [].
  - intros k k' b _ _ Hb Hb'. rewrite income_keys_of_day in Hb, Hb'.
    destruct (incomeOf (onDay toDateString k l)); [destruct Hb|].
    destruct (incomeOf (onDay toDateString k' l)); [destruct Hb'|].
    destruct Hb as [<-|[]]. destruct Hb' as [E|[]].
    simpl in E. now injection E.
Qed.

Lemma propertyOrder_indicesThenNames (ks : list string) :
  propertyOrder ks = indicesThenNames ks.
Proof.
  unfold propertyOrder, indicesThenNames, JS.keys, JS.ownProperties.
  rewrite !filter_map_comm. simpl.
  rewrite (sort_map (fun k => (k, tt)) compareKeys (@JS.compareIndex unit))
    by reflexivity.
  rewrite map_app, !map_map. simpl. now rewrite !map_id.
Qed.

Lemma index_keys (ks : list string) :
  Forall (fun k => JS.isArrayIndex k = true) (filter JS.isArrayIndex ks).
Proof. apply Forall_forall. intros k Hk. now apply filter_In in Hk. Qed.

(** The array-index keys come out by ascending value. *)
Lemma indices_ascending (ks : list string) :
  StronglySorted indexLe (JS.sort compareKeys (filter JS.isArrayIndex ks)).
Proof.
  apply StronglySorted_weaken
    with (Q := fun k => JS.isArrayIndex k = true)
         (R := fun a b => compareKeys a b <= 0).
  - unfold indexLe, compareKeys, JS.isArrayIndex. intros a b.
    destruct (JS.arrayIndex a), (JS.arrayIndex b); try discriminate.
    intros _ _. lia.
  - apply (Permutation_Forall (Permutation_sym (sort_perm _ _))).
    apply index_keys.
  - apply sort_sorted with (Q := fun k => JS.isArrayIndex k = true);
      [| |apply index_keys];
      unfold compareKeys, JS.isArrayIndex; intros x y;
      destruct (JS.arrayIndex x), (JS.arrayIndex y); try discriminate;
      intros;
      try match goal with |- context [JS.arrayIndex ?z] =>
                            destruct (JS.arrayIndex z); try discriminate end;
      lia.
Qed.

(** Day labels keep the order in which the days first appear. *)
Lemma days_order (l : list Notification) :
  (forall t, JS.arrayIndex (toDateString t) = None) ->
  propertyOrder (firstOccurrences (List.map (dayOf toDateString) l))
  = firstOccurrences (List.map (dayOf toDateString) l).
Proof.
  intros Hday. apply propertyOrder_names. intros k Hk.
  apply firstOccurrences_In, in_map_iff in Hk.
  destruct Hk as [n [<- _]]. apply Hday.
Qed.

(** C8, amended.  Days come in the order they first appear in the input.
    Within a day the income group, if any, comes first; then the normal
    groups whose key is an array index, by ascending value of the index;
    then the other normal groups, in the order their keys first appear
    among the day's records.  Day labels are never array indices. *)
Theorem groups_in_order (l : list Notification) :
  (forall t, JS.arrayIndex (toDateString t) = None) ->
  List.map label (groupNotifications toDateString l)
  = labelsInOrder toDateString indicesThenNames l.
Proof.
  intros Hday. rewrite labels_shape, days_order by assumption.
  unfold labelsInOrder. apply flat_map_ext. intros day.
  unfold labelsOfDay. f_equal. f_equal.
  apply propertyOrder_indicesThenNames.
Qed.

(** When no contract key of the input is an array index, the normal groups
    of a day come in the order their keys first appear. *)
Lemma groups_in_order_names (l : list Notification) :
  (forall t, JS.arrayIndex (toDateString t) = None) ->
  (forall n, In n l -> JS.arrayIndex (contractKey n) = None) ->
  List.map label (groupNotifications toDateString l)
  = labelsInOrder toDateString (fun ks => ks) l.
Proof.
  intros Hday Hkeys. rewrite labels_shape, days_order by assumption.
  unfold labelsInOrder. apply flat_map_ext. intros day.
  unfold labelsOfDay. f_equal. f_equal.
  apply propertyOrder_names.
  intros k Hk. apply firstOccurrences_In, in_map_iff in Hk.
  destruct Hk as [n [<- Hn]]. apply Hkeys.
  apply In_normalOf in Hn. destruct Hn as [Hn _].
  apply In_onDay in Hn. tauto.
Qed.

End Labels.

(** ** Records without a contract *)

Section AbsentContract.

Variable toDateString : Z -> string.

(** C3, amended.  The normal records of a day that lack a
    [sourceContractId] all sit in one normal group of that day, the only
    group that holds them, and the key of that group is the string
    "undefined". *)
Theorem absent_contract_group (l : list Notification) (n : Notification) :
  In n l ->
  isIncome n = false ->
  sourceContractId n = None ->
  collapsedUnder toDateString "undefined" l n.
Proof.
  intros Hn Hnormal Habsent.
  assert (Hkey : contractKey n = "undefined")
    by (unfold contractKey; now rewrite Habsent).
  pose proof (normal_record_group toDateString l n Hn Hnormal) as Hg.
  rewrite Hkey in Hg.
  eexists. split; [exact Hg|].
  split; [reflexivity|]. split; [reflexivity|]. split; [reflexivity|].
  split.
  - intros m Hm Hday Hm' Hmabs. apply In_contract_group.
    unfold contractKey. rewrite Hmabs. tauto.
  - intros g' Hg' Hmem.
    destruct (groupNotifications_origin _ _ _ Hg')
      as [day first rest E ->|day k member _ ->].
    + change (In n (first :: rest)) in Hmem. rewrite <- E in Hmem.
      apply In_incomeOf in Hmem. destruct Hmem as [_ Hmem]. congruence.
    + apply In_contract_group in Hmem.
      destruct Hmem as [_ [<- [_ <-]]]. now rewrite Hkey.
Qed.

End AbsentContract.

(** ** The UTC calendar *)

Lemma weekDayName_not_index (w rest : string) :
  In w UTC.weekDayNames -> JS.arrayIndex (String.append w rest) = None.
Proof.
  unfold UTC.weekDayNames. intros H.
  repeat (destruct H as [<-|H]; [reflexivity|]). destruct H.
Qed.

Lemma utcDateString_not_index (t : Z) :
  JS.arrayIndex (utcDateString t) = None.
Proof.
  unfold utcDateString, UTC.toDateString.
  destruct (8640000000000000 <? Z.abs t); [reflexivity|].
  destruct (UTC.civilFromDays (t / UTC.msPerDay)) as [[y m] d].
  apply weekDayName_not_index.
  destruct (nth_in_or_default
              (Z.to_nat ((t / UTC.msPerDay + 4) mod 7)) UTC.weekDayNames "Sun")
    as [H|H]; [exact H|].
  rewrite H. simpl. auto.
Qed.

(** ** The claims on sample feeds *)

Lemma normal_group_unseen_rollup_sample :
  In sampleNormalGroup (groupNotifications utcDateString sampleFeed)
  /\ type sampleNormalGroup = normal
  /\ (NotificationGroup.isSeen sampleNormalGroup = true
      <-> exists n, In n (notifications sampleNormalGroup) /\ isSeen n = false).
Proof.
  split; [vm_compute; right; left; reflexivity|]. split; [reflexivity|].
  apply (normal_group_unseen_rollup utcDateString sampleFeed sampleNormalGroup).
  - vm_compute. right; left; reflexivity.
  - reflexivity.
Defined.

Lemma groups_nonempty_sample :
  In sampleNormalGroup (groupNotifications utcDateString sampleFeed)
  /\ notifications sampleNormalGroup <> [].
Proof.
  split; [vm_compute; right; left; reflexivity|].
  apply (groups_nonempty utcDateString sampleFeed sampleNormalGroup).
  vm_compute. right; left; reflexivity.
Defined.

Lemma normal_group_same_key_sample :
  In sampleNormalGroup (groupNotifications utcDateString sampleFeed)
  /\ type sampleNormalGroup = normal
  /\ (forall n, In n (notifications sampleNormalGroup) ->
                contractKey n = groupedById sampleNormalGroup)
  /\ (forall n m,
        In n (notifications sampleNormalGroup) ->
        In m (notifications sampleNormalGroup) ->
        sourceContractId n <> Some "undefined" ->
        sourceContractId m <> Some "undefined" ->
        sourceContractId n = sourceContractId m).
Proof.
  split; [vm_compute; right; left; reflexivity|]. split; [reflexivity|].
  apply (normal_group_same_key utcDateString sampleFeed sampleNormalGroup).
  - vm_compute. right; left; reflexivity.
  - reflexivity.
Defined.

Lemma normal_group_newest_first_sample :
  In sampleNormalGroup (groupNotifications utcDateString sampleFeed)
  /\ type sampleNormalGroup = normal
  /\ Permutation (notifications sampleNormalGroup)
                 (bucketOf utcDateString sampleFeed sampleNormalGroup)
  /\ newestFirst (notifications sampleNormalGroup)
  /\ forall t, createdAt t (notifications sampleNormalGroup)
               = createdAt t (bucketOf utcDateString sampleFeed sampleNormalGroup).
Proof.
  split; [vm_compute; right; left; reflexivity|]. split; [reflexivity|].
  apply (normal_group_newest_first utcDateString sampleFeed sampleNormalGroup).
  - vm_compute. right; left; reflexivity.
  - reflexivity.
Defined.

Lemma income_group_of_day_sample :
  incomeOf (onDay utcDateString "Thu Jan 01 1970" sampleFeed)
  = [ mkNotification "b" 300 false (Some "tip") (Some "m1");
      mkNotification "g" 350 true (Some "loan") None ]
  /\ filter (fun g => isIncomeGroup g
                      && String.eqb (timePeriod g) "Thu Jan 01 1970")
            (groupNotifications utcDateString sampleFeed)
     = [ {| notifications :=
              [ mkNotification "b" 300 false (Some "tip") (Some "m1");
                mkNotification "g" 350 true (Some "loan") None ];
            groupedById := String.append "income" "Thu Jan 01 1970";
            NotificationGroup.isSeen := false;
            timePeriod := "Thu Jan 01 1970";
            type := income |} ].
Proof.
  split; [vm_compute; reflexivity|].
  apply (income_group_of_day utcDateString sampleFeed "Thu Jan 01 1970"
           (first := mkNotification "b" 300 false (Some "tip") (Some "m1"))
           (rest := [mkNotification "g" 350 true (Some "loan") None])).
  vm_compute. reflexivity.
Defined.

Lemma income_classification_sample :
  In noContract sampleFeed
  /\ ~ hasIncomeSourceType noContract
  /\ exists g, In g (groupNotifications utcDateString sampleFeed)
               /\ type g = normal /\ In noContract (notifications g).
Proof.
  assert (Hin : In noContract sampleFeed)
    by (vm_compute; do 4 right; left; reflexivity).
  assert (Htag : ~ hasIncomeSourceType noContract)
    by (intros [s [E _]]; discriminate E).
  split; [exact Hin|]. split; [exact Htag|].
  exact (proj2 (proj2 (income_classification utcDateString sampleFeed))
               noContract Hin Htag).
Defined.

Lemma absent_contract_group_collapse :
  In noContract contractlessFeed
  /\ isIncome noContract = false
  /\ sourceContractId noContract = None
  /\ collapsedUnder utcDateString "undefined" contractlessFeed noContract.
Proof.
  assert (Hin : In noContract contractlessFeed)
    by (vm_compute; left; reflexivity).
  split; [exact Hin|]. split; [reflexivity|]. split; [reflexivity|].
  apply (absent_contract_group utcDateString contractlessFeed noContract).
  - exact Hin.
  - reflexivity.
  - reflexivity.
Defined.

(** On [contractlessFeed] the two normal records without a contract id
    share the group "undefined"; the loan without one is in the income
    group. *)
Example contractless_records_share_group :
  List.map (fun g => (type g, groupedById g, List.map id (notifications g)))
           (groupNotifications utcDateString contractlessFeed)
  = [ (income, "incomeThu Jan 01 1970", ["w"]);
      (normal, "undefined", ["z"; "e"]);
      (normal, "m1", ["y"]) ].
Proof. vm_compute. reflexivity. Qed.

Lemma groups_in_order_sample :
  (forall t, JS.arrayIndex (utcDateString t) = None)
  /\ List.map label (groupNotifications utcDateString numericContractsFeed)
     = labelsInOrder utcDateString indicesThenNames numericContractsFeed.
Proof.
  split; [exact utcDateString_not_index|].
  apply (groups_in_order utcDateString numericContractsFeed).
  exact utcDateString_not_index.
Defined.

(** ** Where the stated claims fail *)

(** C2 as stated: two days with the same contract give two groups with the
    same [groupedById]. *)
Lemma group_keys_repeat_across_days :
  ~ NoDup (List.map groupedById (groupNotifications utcDateString twoDaysFeed)).
Proof.
  vm_compute. intros H. inversion H as [|x xs Hx _]. apply Hx. now left.
Qed.

(** C2 as stated, between the categories: a contract whose id is "income"
    followed by the day label gives a normal group with the key of the
    day's income group. *)
Lemma income_key_shared_with_contract :
  ~ NoDup (List.map groupedById
             (groupNotifications utcDateString incomeKeyFeed)).
Proof.
  vm_compute. intros H. inversion H as [|x xs Hx _]. apply Hx. now left.
Qed.

(** C3 as stated: the key of the group of a record without a contract id
    is not the empty string. *)
Lemma absent_contract_key_not_empty :
  In noContract [noContract]
  /\ isIncome noContract = false
  /\ sourceContractId noContract = None
  /\ ~ collapsedUnder utcDateString "" [noContract] noContract.
Proof.
  split; [now left|]. split; [reflexivity|]. split; [reflexivity|].
  intros [g [Hg [_ [_ [Hkey _]]]]].
  vm_compute in Hg. destruct Hg as [<-|[]]. discriminate Hkey.
Qed.

(** C7 as stated: a record without a contract id and a record whose
    contract id is the string "undefined" share a normal group. *)
Lemma undefined_contract_shares_group :
  exists g,
    In g (groupNotifications utcDateString [noContract; undefinedContract])
    /\ type g = normal
    /\ ~ sameContract g.
Proof.
  eexists. split; [vm_compute; left; reflexivity|]. split; [reflexivity|].
  intros H.
  specialize (H noContract undefinedContract).
  simpl in H. discriminate H.
  - right; left; reflexivity.
  - left; reflexivity.
Qed.

(** C8 as stated: contracts "2" and "1", met in that order, come out as
    "1" then "2", not in the order they first appear. *)
Lemma numeric_keys_not_in_first_appearance_order :
  List.map label (groupNotifications utcDateString numericContractsFeed)
  <> labelsInOrder utcDateString (fun ks => ks) numericContractsFeed.
Proof. vm_compute. discriminate. Qed.

(** ** The scenarios of the specification, run on the model *)

Example scenario_empty : groupNotifications utcDateString [] = [].
Proof. reflexivity. Qed.

Example scenario_income_first :
  List.map label
    (groupNotifications utcDateString
       [ mkNotification "t" 100 true (Some "tip") None;
         mkNotification "c" 200 true (Some "comment") (Some "m1") ])
  = [ ("Thu Jan 01 1970", income, "incomeThu Jan 01 1970");
      ("Thu Jan 01 1970", normal, "m1") ].
Proof. vm_compute. reflexivity. Qed.

Example scenario_newest_first :
  List.map (fun g => List.map createdTime (notifications g))
    (groupNotifications utcDateString
       [ mkNotification "x" 300 true (Some "comment") (Some "m1");
         mkNotification "y" 100 true (Some "comment") (Some "m1");
         mkNotification "z" 200 true (Some "comment") (Some "m1") ])
  = [ [300; 200; 100] ].
Proof. vm_compute. reflexivity. Qed.

Example scenario_unseen :
  List.map NotificationGroup.isSeen
    (groupNotifications utcDateString
       [ mkNotification "x" 300 true (Some "comment") (Some "m1");
         mkNotification "y" 100 false (Some "comment") (Some "m1") ])
  = [ true ].
Proof. vm_compute. reflexivity. Qed.

Example scenario_two_days :
  List.map label
    (groupNotifications utcDateString
       [ mkNotification "x" 86400000 true (Some "comment") (Some "m1");
         mkNotification "y" 100 false (Some "comment") (Some "m2");
         mkNotification "z" 86400001 false (Some "comment") (Some "m3") ])
  = [ ("Fri Jan 02 1970", normal, "m1");
      ("Fri Jan 02 1970", normal, "m3");
      ("Thu Jan 01 1970", normal, "m2") ].
Proof. vm_compute. reflexivity. Qed.

(** * Further properties of the feed *)

Section Feed.

Variable toDateString : Z -> string.

Lemma feed_members_perm (l : list Notification) :
  Permutation l (flat_map notifications (groupNotifications toDateString l)).
Proof.
  symmetry.
  rewrite groupNotifications_shape, flat_map_compose.
  etransitivity.
  { apply flat_map_perm_pointwise with (G := fun day => onDay toDateString day l).
    intros day. apply groupsOfDay_members. }
  etransitivity; [apply flat_map_perm, propertyOrder_perm|].
  etransitivity; [|apply (groupBy_perm (dayOf toDateString) l)].
  rewrite groupBy_buckets. unfold buckets, onDay.
  now rewrite (flat_map_concat_map snd), map_map, <- flat_map_concat_map.
Qed.

Lemma origin_nonempty (l : list Notification) (g : NotificationGroup.t) :
  groupOrigin toDateString l g -> notifications g <> [].
Proof.
  intros [day first rest _ ->|day k member Hm ->]; [discriminate|].
  simpl. intros Hnil.
  apply (proj2 (sort_In byCreatedTimeDesc _ member)) in Hm.
  rewrite Hnil in Hm. destruct Hm.
Qed.

Lemma length_flat_members (gs : list NotificationGroup.t) :
  (forall g, In g gs -> notifications g <> []) ->
  (List.length gs <= List.length (flat_map notifications gs))%nat.
Proof.
  induction gs as [|g gs IH]; intros H; simpl; [lia|].
  rewrite length_app.
  assert (Hg : notifications g <> []) by (apply H; now left).
  assert (IH' : (List.length gs <= List.length (flat_map notifications gs))%nat)
    by (apply IH; intros g' Hg'; apply H; now right).
  destruct (notifications g); [congruence|]. simpl. lia.
Qed.

(** X1.  Day cohesion: every member of a group was created on the group's
    day, the [timePeriod] of the group. *)
Theorem group_members_same_day (l : list Notification)
        (g : NotificationGroup.t) (n : Notification) :
  In g (groupNotifications toDateString l) ->
  In n (notifications g) ->
  dayOf toDateString n = timePeriod g.
Proof.
  intros Hg Hn.
  destruct (groupNotifications_origin _ _ _ Hg)
    as [day first rest E ->|day k member _ ->].
  - change (In n (first :: rest)) in Hn. rewrite <- E in Hn.
    apply In_incomeOf in Hn. destruct Hn as [Hn _].
    apply In_onDay in Hn. simpl. tauto.
  - apply In_contract_group in Hn. simpl. tauto.
Qed.

(** X2.  The feed is empty exactly when there is no notification. *)
Theorem feed_empty_iff (l : list Notification) :
  groupNotifications toDateString l = [] <-> l = [].
Proof.
  split.
  - intros H. pose proof (feed_members_perm l) as P.
    rewrite H in P. simpl in P. now apply Permutation_sym, Permutation_nil in P.
  - intros ->. reflexivity.
Qed.

(** X3.  There are never more groups than notifications. *)
Theorem feed_length_bound (l : list Notification) :
  (List.length (groupNotifications toDateString l) <= List.length l)%nat.
Proof.
  rewrite (Permutation_length (feed_members_perm l)).
  apply length_flat_members. intros g Hg.
  apply origin_nonempty with (l := l).
  now apply groupNotifications_origin.
Qed.

End Feed.

(** ** The feed, day by day *)

Section DayByDay.

Variable toDateString : Z -> string.

Lemma firstOccurrences_constant (d : string) (ks : list string) :
  (forall k, In k ks -> k = d) -> ks <> [] -> firstOccurrences ks = [d].
Proof.
  destruct ks as [|a ks]; [congruence|]. intros H _.
  simpl. rewrite (H a) by now left. f_equal.
  apply filter_none. intros k Hk.
  apply (proj1 (firstOccurrences_In _ _)) in Hk.
  rewrite (H k) by now right. now rewrite String.eqb_refl.
Qed.

Lemma propertyOrder_singleton (d : string) : propertyOrder [d] = [d].
Proof.
  apply Permutation_length_1_inv, Permutation_sym, propertyOrder_perm.
Qed.

Lemma onDay_idem (day : string) (l : list Notification) :
  onDay toDateString day (onDay toDateString day l) = onDay toDateString day l.
Proof.
  apply filter_all. intros n Hn. apply In_onDay in Hn.
  destruct Hn as [_ <-]. apply String.eqb_refl.
Qed.

Lemma onDay_absent (day : string) (l : list Notification) :
  ~ In day (List.map (dayOf toDateString) l) -> onDay toDateString day l = [].
Proof.
  intros H. apply filter_none. intros n Hn.
  destruct (String.eqb_spec (dayOf toDateString n) day) as [E|]; [|reflexivity].
  exfalso. apply H. rewrite <- E. now apply in_map.
Qed.

(** The feed of the records of one day. *)
Lemma groupNotifications_onDay (day : string) (l : list Notification) :
  In day (List.map (dayOf toDateString) l) ->
  groupNotifications toDateString (onDay toDateString day l)
  = groupsOfDay day (onDay toDateString day l).
Proof.
  intros Hday. rewrite groupNotifications_shape.
  rewrite (firstOccurrences_constant (d := day)).
  - rewrite propertyOrder_singleton. simpl.
    now rewrite onDay_idem, app_nil_r.
  - intros k Hk. apply in_map_iff in Hk. destruct Hk as [n [<- Hn]].
    apply In_onDay in Hn. tauto.
  - apply in_map_iff in Hday. destruct Hday as [n [E Hn]].
    assert (H : In n (onDay toDateString day l)) by now apply In_onDay.
    destruct (onDay toDateString day l); [destruct H|discriminate].
Qed.

Lemma flat_map_ext_in (A B : Type) (F G : A -> list B) (l : list A) :
  (forall a, In a l -> F a = G a) -> flat_map F l = flat_map G l.
Proof.
  intros H. rewrite !flat_map_concat_map. f_equal. now apply map_ext_in.
Qed.

(** X4.  The groups of one day in the feed are the feed of that day's
    records alone: keeping the groups whose [timePeriod] is [day] gives
    what [groupNotifications] returns on the records created on [day]. *)
Theorem feed_of_day (l : list Notification) (day : string) :
  filter (fun g => String.eqb (timePeriod g) day)
         (groupNotifications toDateString l)
  = groupNotifications toDateString (onDay toDateString day l).
Proof.
  destruct (in_dec string_dec day (List.map (dayOf toDateString) l)) as [Hday|Hday].
  - rewrite (groupNotifications_onDay _ _ Hday), groupNotifications_shape.
    rewrite (filter_flat_map_single _ _ (d := day)).
    + apply filter_all. intros g Hg. apply groupsOfDay_timePeriod in Hg.
      rewrite Hg. apply String.eqb_refl.
    + apply days_NoDup.
    + now apply propertyOrder_In, firstOccurrences_In.
    + intros k _ Hne. apply filter_none. intros g Hg.
      apply groupsOfDay_timePeriod in Hg. rewrite Hg.
      destruct (String.eqb_spec k day); [contradiction|reflexivity].
  - rewrite (onDay_absent _ _ Hday). simpl.
    apply filter_none. intros g Hg. apply In_groupNotifications in Hg.
    destruct Hg as [day' [Hday' Hg]]. apply groupsOfDay_timePeriod in Hg.
    rewrite Hg. destruct (String.eqb_spec day' day); [|reflexivity].
    subst. contradiction.
Qed.

(** X5.  The feed is made of one block per day: it is the concatenation,
    over the days in the order they first appear in the input, of the feed
    of each day's records.  Day labels are never array indices. *)
Theorem feed_day_blocks (l : list Notification) :
  (forall t, JS.arrayIndex (toDateString t) = None) ->
  groupNotifications toDateString l
  = flat_map (fun day => groupNotifications toDateString
                           (onDay toDateString day l))
      (firstOccurrences (List.map (dayOf toDateString) l)).
Proof.
  intros Hday. rewrite groupNotifications_shape at 1.
  rewrite days_order by assumption.
  apply flat_map_ext_in. intros day Hd.
  apply (proj1 (firstOccurrences_In _ _)) in Hd.
  now rewrite groupNotifications_onDay.
Qed.

Lemma firstOccurrences_app (ks ks' : list string) :
  (forall k, In k ks -> ~ In k ks') ->
  firstOccurrences (ks ++ ks') = firstOccurrences ks ++ firstOccurrences ks'.
Proof.
  induction ks as [|a ks IH]; intros H; [reflexivity|].
  simpl. rewrite IH by (intros k Hk; apply H; now right).
  rewrite filter_app. f_equal. f_equal.
  apply filter_all. intros k Hk.
  apply (proj1 (firstOccurrences_In _ _)) in Hk.
  destruct (String.eqb_spec k a) as [->|]; [|reflexivity].
  exfalso. apply (H a); [now left|assumption].
Qed.

(** X6.  Feeds of disjoint days concatenate: when no record of [l1] was
    created on the day of a record of [l2], the feed of [l1 ++ l2] is the
    feed of [l1] followed by the feed of [l2]. *)
Theorem feed_app_disjoint_days (l1 l2 : list Notification) :
  (forall t, JS.arrayIndex (toDateString t) = None) ->
  (forall n1 n2, In n1 l1 -> In n2 l2 ->
                 dayOf toDateString n1 <> dayOf toDateString n2) ->
  groupNotifications toDateString (l1 ++ l2)
  = groupNotifications toDateString l1 ++ groupNotifications toDateString l2.
Proof.
  intros Hday Hdisjoint.
  rewrite !groupNotifications_shape, !days_order by assumption.
  rewrite map_app, firstOccurrences_app, flat_map_app.
  - f_equal; apply flat_map_ext_in; intros day Hd;
      apply (proj1 (firstOccurrences_In _ _)), in_map_iff in Hd;
      destruct Hd as [n [<- Hn]]; f_equal;
      unfold onDay; rewrite filter_app.
    + rewrite (filter_none _ l2); [apply app_nil_r|].
      intros m Hm. destruct (String.eqb_spec (dayOf toDateString m)
                                             (dayOf toDateString n)) as [E|];
        [|reflexivity].
      exfalso. apply (Hdisjoint n m Hn Hm). congruence.
    + rewrite (filter_none _ l1); [reflexivity|].
      intros m Hm. destruct (String.eqb_spec (dayOf toDateString m)
                                             (dayOf toDateString n)) as [E|];
        [|reflexivity].
      exfalso. apply (Hdisjoint m n Hm Hn). congruence.
  - intros k Hk Hk'. apply in_map_iff in Hk, Hk'.
    destruct Hk as [n1 [<- H1]]. destruct Hk' as [n2 [E H2]].
    apply (Hdisjoint n1 n2 H1 H2). congruence.
Qed.

End DayByDay.

(** ** Sorting and filtering *)

Section SortFilterFacts.

Variable A : Type.
Variable compareFn : A -> A -> Z.
Hypothesis compare_trans :
  forall x y z, compareFn x y <= 0 -> compareFn y z <= 0 -> compareFn x z <= 0.
Hypothesis compare_total :
  forall x y, 0 < compareFn x y -> compareFn y x <= 0.

Lemma insert_front (x : A) (l : list A) :
  (forall z, In z l -> compareFn x z <= 0) -> JS.insert compareFn x l = x :: l.
Proof.
  destruct l as [|y l]; [reflexivity|]. intros H. simpl.
  destruct (Z.leb_spec (compareFn x y) 0) as [_|Hgt]; [reflexivity|].
  specialize (H y (or_introl eq_refl)). lia.
Qed.

Lemma insert_filter_comm (P : A -> bool) (x : A) (l : list A) :
  StronglySorted (fun a b => compareFn a b <= 0) l ->
  filter P (JS.insert compareFn x l)
  = if P x then JS.insert compareFn x (filter P l) else filter P l.
Proof.
  induction 1 as [|y l Hs IH Hy]; simpl; [now destruct (P x)|].
  rewrite Forall_forall in Hy.
  destruct (Z.leb_spec (compareFn x y) 0) as [Hle|Hgt]; simpl.
  - destruct (P x) eqn:Px, (P y) eqn:Py; try reflexivity.
    + simpl. destruct (Z.leb_spec (compareFn x y) 0); [reflexivity|lia].
    + symmetry. apply insert_front. intros z Hz.
      apply filter_In in Hz. destruct Hz as [Hz _].
      apply (compare_trans Hle (Hy z Hz)).
  - rewrite IH. destruct (P x) eqn:Px, (P y) eqn:Py; try reflexivity.
    simpl. destruct (Z.leb_spec (compareFn x y) 0); [lia|reflexivity].
Qed.

(** Filtering a sorted array gives the sorted filtered array. *)
Lemma sort_filter_comm (P : A -> bool) (l : list A) :
  filter P (JS.sort compareFn l) = JS.sort compareFn (filter P l).
Proof.
  induction l as [|x l IH]; [reflexivity|].
  simpl JS.sort. rewrite insert_filter_comm.
  - simpl. rewrite IH. now destruct (P x).
  - apply sort_sorted with (Q := fun _ => True);
      [intros; eapply compare_trans; eassumption
      |intros; now apply compare_total
      |apply Forall_forall; trivial].
Qed.

(** Sorting a sorted array changes nothing. *)
Lemma sort_sorted_id (l : list A) :
  StronglySorted (fun a b => compareFn a b <= 0) l -> JS.sort compareFn l = l.
Proof.
  induction 1 as [|x l Hs IH Hx]; [reflexivity|].
  simpl. rewrite IH. apply insert_front. now apply Forall_forall.
Qed.

End SortFilterFacts.

Lemma filter_comm (A : Type) (P Q : A -> bool) (l : list A) :
  filter P (filter Q l) = filter Q (filter P l).
Proof.
  induction l as [|a l IH]; [reflexivity|].
  simpl. destruct (P a) eqn:Pa, (Q a) eqn:Qa; simpl;
    rewrite ?Pa, ?Qa, IH; reflexivity.
Qed.

Lemma sort_unseenOf (ns : list Notification) :
  unseenOf (JS.sort byCreatedTimeDesc ns) = JS.sort byCreatedTimeDesc (unseenOf ns).
Proof.
  apply sort_filter_comm; unfold byCreatedTimeDesc; intros; lia.
Qed.

(** ** The unseen feed *)

Section Unseen.

Variable toDateString : Z -> string.

Lemma In_unseenOf (l : list Notification) (n : Notification) :
  In n (unseenOf l) <-> In n l /\ isSeen n = false.
Proof.
  unfold unseenOf. rewrite filter_In. now rewrite negb_true_iff.
Qed.

Lemma incomeOf_unseen (day : string) (l : list Notification) :
  incomeOf (onDay toDateString day (unseenOf l))
  = unseenOf (incomeOf (onDay toDateString day l)).
Proof.
  unfold incomeOf, onDay, unseenOf.
  now rewrite (filter_comm _ (fun n => negb (isSeen n)) l), filter_comm.
Qed.

Lemma bucket_unseen (day k : string) (l : list Notification) :
  underKey k (normalOf (onDay toDateString day (unseenOf l)))
  = unseenOf (underKey k (normalOf (onDay toDateString day l))).
Proof.
  unfold underKey, normalOf, onDay, unseenOf.
  rewrite (filter_comm _ (fun n => negb (isSeen n)) l).
  rewrite (filter_comm _ (fun n => negb (isSeen n))).
  now rewrite (filter_comm _ (fun n => negb (isSeen n))).
Qed.

(** The income group of a day is in the feed. *)
Lemma income_group_In (l : list Notification) (day : string)
      (first : Notification) (rest : list Notification) :
  incomeOf (onDay toDateString day l) = first :: rest ->
  In {| notifications := first :: rest;
        groupedById := String.append "income" day;
        NotificationGroup.isSeen := isSeen first;
        timePeriod := day;
        type := income |}
     (groupNotifications toDateString l).
Proof.
  intros E. apply In_groupNotifications. exists day. split.
  - assert (H : In first (incomeOf (onDay toDateString day l)))
      by (rewrite E; now left).
    apply In_incomeOf in H. destruct H as [H _].
    apply In_onDay in H. destruct H as [H <-]. now apply in_map.
  - unfold groupsOfDay. apply in_or_app. left.
    unfold incomeGroupOf. rewrite E. now left.
Qed.

(** The group of a contract key of a day is in the feed as soon as it has
    a member. *)
Lemma contract_group_In (l : list Notification) (day k : string)
      (member : Notification) :
  In member (underKey k (normalOf (onDay toDateString day l))) ->
  In (notificationGroupOf day
        (underKey k (normalOf (onDay toDateString day l))) k)
     (groupNotifications toDateString l).
Proof.
  intros Hm. apply In_underKey in Hm. destruct Hm as [Hm <-].
  apply In_normalOf in Hm. destruct Hm as [Hm Hnormal].
  apply In_onDay in Hm. destruct Hm as [Hm <-].
  now apply normal_record_group.
Qed.

(** X7.  In the unseen feed every member of every group is unseen, every
    normal group is flagged ([isSeen = true]) and no income group is
    ([isSeen = false], the [isSeen] of its first member). *)
Theorem unseen_feed_flags (store : option (list Notification))
        (feed : list NotificationGroup.t) (g : NotificationGroup.t) :
  useUnseenGroupedNotification toDateString store = Some feed ->
  In g feed ->
  (forall n, In n (notifications g) -> isSeen n = false)
  /\ NotificationGroup.isSeen g
     = match type g with normal => true | income => false end.
Proof.
  destruct store as [l|]; [|discriminate].
  unfold useUnseenGroupedNotification. simpl.
  intros E Hg. injection E as <-.
  destruct (groupNotifications_origin _ _ _ Hg)
    as [day first rest E ->|day k member Hm ->].
  - assert (Hall : forall n, In n (first :: rest) -> isSeen n = false).
    { intros n Hn. rewrite <- E in Hn. apply In_incomeOf in Hn.
      destruct Hn as [Hn _]. apply In_onDay in Hn. destruct Hn as [Hn _].
      apply In_unseenOf in Hn. tauto. }
    split; [exact Hall|]. simpl. apply Hall. now left.
  - assert (Hall : forall n,
               In n (underKey k (normalOf (onDay toDateString day (unseenOf l)))) ->
               isSeen n = false).
    { intros n Hn. apply In_underKey in Hn. destruct Hn as [Hn _].
      apply In_normalOf in Hn. destruct Hn as [Hn _].
      apply In_onDay in Hn. destruct Hn as [Hn _].
      apply In_unseenOf in Hn. tauto. }
    split.
    + simpl. intros n Hn. apply Hall. now apply sort_In in Hn.
    + simpl. apply existsb_exists. exists member. split.
      * now apply sort_In.
      * now rewrite (Hall member Hm).
Qed.

(** X8.  Every group of the unseen feed is a group of the full feed with
    its seen members removed: the full feed has a group with the same day,
    category and key whose unseen members, in the same order, are the
    members of the unseen group. *)
Theorem unseen_group_from_feed (store : option (list Notification))
        (feed unseenFeed : list NotificationGroup.t) (g' : NotificationGroup.t) :
  useGroupedNotifications toDateString store = Some feed ->
  useUnseenGroupedNotification toDateString store = Some unseenFeed ->
  In g' unseenFeed ->
  exists g, In g feed
            /\ label g = label g'
            /\ notifications g' = unseenOf (notifications g).
Proof.
  destruct store as [l|]; [|discriminate].
  unfold useUnseenGroupedNotification. simpl.
  intros E E' Hg'. injection E as <-. injection E' as <-.
  destruct (groupNotifications_origin _ _ _ Hg')
    as [day first rest E ->|day k member Hm ->].
  - rewrite incomeOf_unseen in E.
    destruct (incomeOf (onDay toDateString day l)) as [|first0 rest0] eqn:E0;
      [discriminate|].
    eexists. split; [eapply income_group_In, E0|].
    split; [reflexivity|]. symmetry. exact E.
  - rewrite bucket_unseen in Hm. apply In_unseenOf in Hm.
    destruct Hm as [Hm _].
    eexists. split; [eapply contract_group_In, Hm|].
    split; [reflexivity|]. simpl.
    now rewrite bucket_unseen, sort_unseenOf.
Qed.

(** X9.  Conversely, every group of the full feed that has an unseen member
    shows in the unseen feed, under the same day, category and key, with
    exactly its unseen members in the same order. *)
Theorem feed_group_in_unseen (store : option (list Notification))
        (feed unseenFeed : list NotificationGroup.t) (g : NotificationGroup.t) :
  useGroupedNotifications toDateString store = Some feed ->
  useUnseenGroupedNotification toDateString store = Some unseenFeed ->
  In g feed ->
  unseenOf (notifications g) <> [] ->
  exists g', In g' unseenFeed
             /\ label g' = label g
             /\ notifications g' = unseenOf (notifications g).
Proof.
  destruct store as [l|]; [|discriminate].
  unfold useUnseenGroupedNotification. simpl.
  intros E E' Hg Hsome. injection E as <-. injection E' as <-.
  destruct (groupNotifications_origin _ _ _ Hg)
    as [day first rest E ->|day k member Hm ->].
  - cbn [notifications] in Hsome |- *.
    destruct (unseenOf (first :: rest)) as [|first' rest'] eqn:E'; [congruence|].
    assert (Eu : incomeOf (onDay toDateString day (unseenOf l)) = first' :: rest')
      by (now rewrite incomeOf_unseen, E).
    eexists. split; [eapply income_group_In, Eu|].
    split; reflexivity.
  - cbn [notifications notificationGroupOf] in Hsome |- *.
    rewrite sort_unseenOf in Hsome.
    destruct (unseenOf (underKey k (normalOf (onDay toDateString day l))))
      as [|m ms] eqn:Eu.
    { simpl in Hsome. congruence. }
    assert (Hm' : In m (underKey k (normalOf (onDay toDateString day (unseenOf l)))))
      by (rewrite bucket_unseen, Eu; now left).
    eexists. split; [eapply contract_group_In, Hm'|].
    split; [reflexivity|]. cbn [notifications notificationGroupOf].
    now rewrite bucket_unseen, sort_unseenOf, Eu.
Qed.

End Unseen.

(** ** Grouping a feed again *)

Section Blocks.

Variable A : Type.
Variable key : A -> string.
Variable block : string -> list A.

(** A list made of one non-empty block per key meets the keys in the order
    of the blocks. *)
Lemma blocks_firstOccurrences (ks : list string) :
  NoDup ks ->
  (forall k, In k ks -> block k <> []) ->
  (forall k x, In k ks -> In x (block k) -> key x = k) ->
  firstOccurrences (List.map key (flat_map block ks)) = ks.
Proof.
  induction 1 as [|k rest Hk Hnd IH]; intros Hne Hkey; [reflexivity|].
  simpl. rewrite map_app, firstOccurrences_app.
  - rewrite (firstOccurrences_constant (d := k)).
    + simpl. f_equal. apply IH.
      * intros k' Hk'. apply Hne. now right.
      * intros k' x Hk'. apply Hkey. now right.
    + intros k' Hk'. apply in_map_iff in Hk'. destruct Hk' as [x [<- Hx]].
      apply Hkey; [now left|assumption].
    + assert (H : block k <> []) by (apply Hne; now left).
      destruct (block k); [congruence|discriminate].
  - intros k' Hk' Hk''. apply in_map_iff in Hk', Hk''.
    destruct Hk' as [x [<- Hx]]. destruct Hk'' as [y [E Hy]].
    apply in_flat_map in Hy. destruct Hy as [k' [Hk' Hy]].
    assert (E1 : key x = k) by (apply Hkey; [now left|assumption]).
    assert (E2 : key y = k') by (apply Hkey; [now right|assumption]).
    apply Hk. congruence.
Qed.

(** The elements with a given key are the block of that key. *)
Lemma blocks_filter (ks : list string) (k : string) :
  NoDup ks ->
  (forall k x, In k ks -> In x (block k) -> key x = k) ->
  In k ks ->
  filter (fun x => String.eqb (key x) k) (flat_map block ks) = block k.
Proof.
  intros Hnd Hkey Hk.
  rewrite (filter_flat_map_single _ _ (d := k)); try assumption.
  - apply filter_all. intros x Hx. rewrite (Hkey k x Hk Hx).
    apply String.eqb_refl.
  - intros k' Hk' Hne. apply filter_none. intros x Hx.
    rewrite (Hkey k' x Hk' Hx).
    destruct (String.eqb_spec k' k); [contradiction|reflexivity].
Qed.

End Blocks.

Lemma index_keys_sorted (ks : list string) :
  StronglySorted (fun a b => compareKeys a b <= 0)
                 (JS.sort compareKeys (filter JS.isArrayIndex ks)).
Proof.
  apply sort_sorted with (Q := fun k => JS.isArrayIndex k = true);
    [| |apply index_keys];
    unfold compareKeys, JS.isArrayIndex; intros x y;
    destruct (JS.arrayIndex x), (JS.arrayIndex y); try discriminate;
    intros;
    try match goal with |- context [JS.arrayIndex ?z] =>
                          destruct (JS.arrayIndex z); try discriminate end;
    lia.
Qed.

(** Keys already in [Object.keys] order stay as they are. *)
Lemma propertyOrder_idem (ks : list string) :
  propertyOrder (propertyOrder ks) = propertyOrder ks.
Proof.
  rewrite (propertyOrder_indicesThenNames ks).
  rewrite propertyOrder_indicesThenNames.
  unfold indicesThenNames. rewrite !filter_app.
  set (S := JS.sort compareKeys (filter JS.isArrayIndex ks)).
  set (N := filter (fun k => negb (JS.isArrayIndex k)) ks).
  assert (HS : forall k, In k S -> JS.isArrayIndex k = true).
  { intros k Hk. apply sort_In in Hk. now apply filter_In in Hk. }
  assert (HN : forall k, In k N -> JS.isArrayIndex k = false).
  { intros k Hk. apply filter_In in Hk. now apply negb_true_iff. }
  rewrite (filter_all _ S HS), (filter_none _ N HN), app_nil_r.
  rewrite (filter_none (fun k => negb (JS.isArrayIndex k)) S),
          (filter_all (fun k => negb (JS.isArrayIndex k)) N).
  - simpl. rewrite sort_sorted_id; [reflexivity|apply index_keys_sorted].
  - intros k Hk. now rewrite (HN k Hk).
  - intros k Hk. now rewrite (HS k Hk).
Qed.

Section Regroup.

Variable toDateString : Z -> string.

Lemma sort_twice (ns : list Notification) :
  JS.sort byCreatedTimeDesc (JS.sort byCreatedTimeDesc ns)
  = JS.sort byCreatedTimeDesc ns.
Proof.
  apply sort_sorted_id.
  apply sort_sorted with (Q := fun _ => True);
    [unfold byCreatedTimeDesc; intros; lia ..|].
  apply Forall_forall. trivial.
Qed.

Lemma contract_keys_NoDup (normals : list Notification) :
  NoDup (propertyOrder (firstOccurrences (List.map contractKey normals))).
Proof. apply propertyOrder_NoDup, firstOccurrences_NoDup. Qed.

Lemma normalGroupsOf_flat (day : string) (normals : list Notification) :
  flat_map notifications (normalGroupsOf day normals)
  = flat_map (fun k => JS.sort byCreatedTimeDesc (underKey k normals))
      (propertyOrder (firstOccurrences (List.map contractKey normals))).
Proof.
  rewrite normalGroupsOf_shape, !flat_map_concat_map, map_map. reflexivity.
Qed.

Lemma normalGroupsOf_regroup (day : string) (normals : list Notification) :
  normalGroupsOf day (flat_map notifications (normalGroupsOf day normals))
  = normalGroupsOf day normals.
Proof.
  rewrite normalGroupsOf_flat.
  set (K := propertyOrder (firstOccurrences (List.map contractKey normals))).
  set (B := fun k => JS.sort byCreatedTimeDesc (underKey k normals)).
  assert (Hkey : forall k x, In k K -> In x (B k) -> contractKey x = k).
  { intros k x _ Hx. apply sort_In, In_underKey in Hx. tauto. }
  assert (Hne : forall k, In k K -> B k <> []).
  { intros k Hk. apply (proj1 (propertyOrder_In _ _)) in Hk.
    apply (proj1 (firstOccurrences_In _ _)), in_map_iff in Hk.
    destruct Hk as [n [E Hn]].
    assert (H : In n (B k)) by (apply sort_In, In_underKey; tauto).
    intros Hnil. rewrite Hnil in H. destruct H. }
  assert (HK : NoDup K) by apply contract_keys_NoDup.
  rewrite (normalGroupsOf_shape day (flat_map B K)).
  rewrite (@blocks_firstOccurrences _ contractKey B K HK Hne Hkey).
  assert (EK : propertyOrder K = K) by apply propertyOrder_idem.
  rewrite EK, normalGroupsOf_shape. fold K.
  apply map_ext_in. intros k Hk.
  unfold underKey at 1.
  rewrite (@blocks_filter _ contractKey B K k HK Hkey Hk).
  unfold B, notificationGroupOf. now rewrite sort_twice.
Qed.

Lemma groupsOfDay_regroup (day : string) (ns : list Notification) :
  groupsOfDay day (flat_map notifications (groupsOfDay day ns))
  = groupsOfDay day ns.
Proof.
  unfold groupsOfDay at 2.
  rewrite flat_map_app, incomeGroupOf_members.
  set (NF := flat_map notifications (normalGroupsOf day (normalOf ns))).
  assert (HI : forall n, In n (incomeOf ns) -> isIncome n = true).
  { intros n Hn. apply In_incomeOf in Hn. tauto. }
  assert (HN : forall n, In n NF -> isIncome n = false).
  { intros n Hn.
    apply (Permutation_in _ (normalGroupsOf_members day (normalOf ns))) in Hn.
    apply In_normalOf in Hn. tauto. }
  assert (EI : incomeOf (incomeOf ns ++ NF) = incomeOf ns).
  { unfold incomeOf at 1. rewrite filter_app.
    rewrite (filter_all _ _ HI), (filter_none _ _ HN). apply app_nil_r. }
  assert (EN : normalOf (incomeOf ns ++ NF) = NF).
  { unfold normalOf at 1. rewrite filter_app.
    rewrite (filter_none _ (incomeOf ns)), (filter_all _ NF); [reflexivity| |].
    - intros n Hn. now rewrite (HN n Hn).
    - intros n Hn. now rewrite (HI n Hn). }
  unfold groupsOfDay. rewrite EI, EN. f_equal.
  apply normalGroupsOf_regroup.
Qed.

(** X10.  Grouping is stable: the notifications of the feed, read group
    after group, are grouped into the same feed again. *)
Theorem feed_regroup (l : list Notification) :
  groupNotifications toDateString
    (flat_map notifications (groupNotifications toDateString l))
  = groupNotifications toDateString l.
Proof.
  rewrite (groupNotifications_shape toDateString l), flat_map_compose.
  set (D := propertyOrder (firstOccurrences (List.map (dayOf toDateString) l))).
  set (M := fun day => flat_map notifications
                         (groupsOfDay day (onDay toDateString day l))).
  assert (Hmem : forall day x, In x (M day) <-> In x (onDay toDateString day l)).
  { intros day x. split; apply Permutation_in;
      [|symmetry]; apply groupsOfDay_members. }
  assert (Hkey : forall day x, In day D -> In x (M day) ->
                               dayOf toDateString x = day).
  { intros day x _ Hx. apply Hmem, In_onDay in Hx. tauto. }
  assert (Hne : forall day, In day D -> M day <> []).
  { intros day Hd. apply (proj1 (propertyOrder_In _ _)) in Hd.
    apply (proj1 (firstOccurrences_In _ _)), in_map_iff in Hd.
    destruct Hd as [n [E Hn]].
    assert (H : In n (M day)) by (apply Hmem, In_onDay; tauto).
    intros Hnil. rewrite Hnil in H. destruct H. }
  assert (HD : NoDup D) by apply days_NoDup.
  rewrite (groupNotifications_shape toDateString (flat_map M D)).
  rewrite (@blocks_firstOccurrences _ (dayOf toDateString) M D HD Hne Hkey).
  assert (ED : propertyOrder D = D) by apply propertyOrder_idem.
  rewrite ED. apply flat_map_ext_in. intros day Hd. unfold onDay at 1.
  rewrite (@blocks_filter _ (dayOf toDateString) M D day HD Hkey Hd).
  apply groupsOfDay_regroup.
Qed.

End Regroup.

(** * [createSupabaseClient] *)

Section SupabaseClient.

Import Supabase.

Variable env : ProcessEnv.
Variable isProd : bool.
Variables PROD_CONFIG DEV_CONFIG : EnvConfig.

(** X11.  A client is returned exactly when the key of the environment is
    set and not empty and the URL, taken from the environment when it is
    set there and from the configuration selected by [isProd] otherwise, is
    not empty; the client is created with that URL and that key. *)
Theorem createSupabaseClient_returns (client : Client) :
  createSupabaseClient env isProd PROD_CONFIG DEV_CONFIG = Returned client
  <-> SUPABASE_KEY env = Some (clientKey client)
      /\ clientKey client <> ""
      /\ clientUrl client <> ""
      /\ (SUPABASE_URL env = Some (clientUrl client)
          \/ (SUPABASE_URL env = None
              /\ supabaseUrl (if isProd then PROD_CONFIG else DEV_CONFIG)
                 = Some (clientUrl client))).
Proof.
  unfold createSupabaseClient. destruct client as [url key]. simpl.
  destruct (SUPABASE_URL env) as [[|c u]|];
    [| |destruct isProd;
        [destruct (supabaseUrl PROD_CONFIG) as [[|c u]|]
        |destruct (supabaseUrl DEV_CONFIG) as [[|c u]|]]];
    destruct (SUPABASE_KEY env) as [[|c' k]|];
    (split;
     [intros H; try discriminate H; injection H as <- <-;
      repeat split; try discriminate; auto
     |intros [Hk [Hk' [Hu [Hurl|[Hnone Hurl]]]]];
      try discriminate; try congruence]).
Qed.

(** A URL set in the environment is final: the configurations and
    [isProd] are not consulted, and when the variable is set to the empty
    string the call throws instead of falling back on them. *)
Lemma env_url_overrides_config (u : string) (isProd' : bool)
        (PROD_CONFIG' DEV_CONFIG' : EnvConfig) :
  SUPABASE_URL env = Some u ->
  createSupabaseClient env isProd PROD_CONFIG DEV_CONFIG
  = createSupabaseClient env isProd' PROD_CONFIG' DEV_CONFIG'
  /\ (u = "" ->
      createSupabaseClient env isProd PROD_CONFIG DEV_CONFIG = Thrown noUrl).
Proof.
  unfold createSupabaseClient. intros ->. split; [reflexivity|].
  now intros ->.
Qed.

(** X12.  The URL is checked before the key.  The call throws the URL
    message exactly when the URL in use is missing or empty, whatever the
    key; it throws the key message exactly when the URL in use is not empty
    and the key is missing or empty. *)
Theorem createSupabaseClient_throws :
  let url := match SUPABASE_URL env with
             | Some u => Some u
             | None => supabaseUrl (if isProd then PROD_CONFIG else DEV_CONFIG)
             end in
  (createSupabaseClient env isProd PROD_CONFIG DEV_CONFIG = Thrown noUrl
   <-> url = None \/ url = Some "")
  /\ (createSupabaseClient env isProd PROD_CONFIG DEV_CONFIG = Thrown noKey
      <-> (url <> None /\ url <> Some "")
          /\ (SUPABASE_KEY env = None \/ SUPABASE_KEY env = Some "")).
Proof.
  unfold createSupabaseClient.
  destruct (SUPABASE_URL env) as [[|c u]|];
    [| |destruct isProd;
        [destruct (supabaseUrl PROD_CONFIG) as [[|c u]|]
        |destruct (supabaseUrl DEV_CONFIG) as [[|c u]|]]];
    destruct (SUPABASE_KEY env) as [[|c' k]|]; simpl;
    unfold noUrl, noKey;
    (split; split; intros H;
     solve [ discriminate H
           | reflexivity
           | intuition (try discriminate; try congruence) ]).
Qed.

End SupabaseClient.

(** * The query of the omni search *)

Section Query.

Import OmniSearch.

Lemma prefix_cases (query : string) :
  (prefix query = "" /\ matchesSigil query = false)
  \/ (exists rest, query = String "%" rest /\ prefix query = "%")
  \/ (exists rest, query = String "#" rest /\ prefix query = "#")
  \/ (exists rest, query = String "@" rest /\ prefix query = "@").
Proof.
  unfold prefix. destruct query as [|c rest]; [now left|]. simpl.
  destruct (Ascii.eqb_spec c "%") as [->|_].
  { right; left. now exists rest. }
  destruct (Ascii.eqb_spec c "#") as [->|_].
  { right; right; left. now exists rest. }
  destruct (Ascii.eqb_spec c "@") as [->|_].
  { right; right; right. now exists rest. }
  now left.
Qed.

(** X13.  The prefix and the search text split the query after its sigil:
    a query that starts with "%", "#" or "@" has that character as prefix
    and the rest as search text; any other query has the empty prefix and
    is its own search text.  In both cases the prefix followed by the
    search text is the query. *)
Theorem prefix_search_split (query : string) :
  String.append (prefix query) (search query) = query
  /\ (forall c rest,
        query = String c rest ->
        In c ["%"; "#"; "@"]%char ->
        prefix query = String c "" /\ search query = rest)
  /\ ((forall c rest, query = String c rest -> ~ In c ["%"; "#"; "@"]%char) ->
      prefix query = "" /\ search query = query).
Proof.
  split; [|split].
  - unfold search.
    destruct (prefix_cases query)
      as [[E _]|[[rest [-> E]]|[[rest [-> E]]|[rest [-> E]]]]];
      rewrite E; reflexivity.
  - intros c rest -> Hin.
    destruct Hin as [<-|[<-|[<-|[]]]]; split; reflexivity.
  - intros Hno. unfold search.
    destruct (prefix_cases query)
      as [[E _]|[[rest [E _]]|[[rest [E _]]|[rest [E _]]]]].
    + rewrite E. split; reflexivity.
    + exfalso. apply (Hno _ _ E). simpl. auto.
    + exfalso. apply (Hno _ _ E). simpl. auto.
    + exfalso. apply (Hno _ _ E). simpl. auto.
Qed.

(** X14.  The hit limits follow the first character of the query: 25
    users and nothing else for "@", 25 groups and nothing else for "#", 25
    markets and nothing else for "%"; for any other query, the empty one
    included, 2 users, 2 groups and 20 markets. *)
Theorem hit_limits (query : string) :
  (forall rest, query = String "@" rest ->
                (userHitLimit query, groupHitLimit query, marketHitLimit query)
                = (25, 0, 0))
  /\ (forall rest, query = String "#" rest ->
                   (userHitLimit query, groupHitLimit query, marketHitLimit query)
                   = (0, 25, 0))
  /\ (forall rest, query = String "%" rest ->
                   (userHitLimit query, groupHitLimit query, marketHitLimit query)
                   = (0, 0, 25))
  /\ ((forall c rest, query = String c rest -> ~ In c ["%"; "#"; "@"]%char) ->
      (userHitLimit query, groupHitLimit query, marketHitLimit query)
      = (2, 2, 20)).
Proof.
  repeat split; try (intros rest ->; reflexivity).
  intros Hno. unfold userHitLimit, groupHitLimit, marketHitLimit.
  destruct (prefix_cases query)
    as [[E _]|[[rest [E _]]|[[rest [E _]]|[rest [E _]]]]].
  - rewrite E. reflexivity.
  - exfalso. apply (Hno _ _ E). simpl. auto.
  - exfalso. apply (Hno _ _ E). simpl. auto.
  - exfalso. apply (Hno _ _ E). simpl. auto.
Qed.

End Query.

(** * The further properties on sample feeds *)

Lemma group_members_same_day_sample :
  In sampleNormalGroup (groupNotifications utcDateString sampleFeed)
  /\ In (mkNotification "a" 100 true (Some "comment") (Some "m2"))
        (notifications sampleNormalGroup)
  /\ dayOf utcDateString (mkNotification "a" 100 true (Some "comment") (Some "m2"))
     = timePeriod sampleNormalGroup.
Proof.
  split; [vm_compute; auto 10|]. split; [vm_compute; auto 10|].
  apply (group_members_same_day utcDateString sampleFeed sampleNormalGroup).
  - vm_compute. auto 10.
  - vm_compute. auto 10.
Defined.

Lemma feed_day_blocks_sample :
  (forall t, JS.arrayIndex (utcDateString t) = None)
  /\ groupNotifications utcDateString sampleFeed
     = flat_map (fun day => groupNotifications utcDateString
                              (onDay utcDateString day sampleFeed))
         (firstOccurrences (List.map (dayOf utcDateString) sampleFeed)).
Proof.
  split; [exact utcDateString_not_index|].
  apply (feed_day_blocks utcDateString sampleFeed).
  exact utcDateString_not_index.
Defined.

Lemma feed_app_disjoint_days_sample :
  (forall t, JS.arrayIndex (utcDateString t) = None)
  /\ (forall n1 n2, In n1 numericContractsFeed -> In n2 secondDayFeed ->
                    dayOf utcDateString n1 <> dayOf utcDateString n2)
  /\ groupNotifications utcDateString (numericContractsFeed ++ secondDayFeed)
     = groupNotifications utcDateString numericContractsFeed
         ++ groupNotifications utcDateString secondDayFeed.
Proof.
  assert (Hdisjoint : forall n1 n2,
             In n1 numericContractsFeed -> In n2 secondDayFeed ->
             dayOf utcDateString n1 <> dayOf utcDateString n2).
  { intros n1 n2 H1 H2.
    destruct H1 as [<-|[<-|[]]]; destruct H2 as [<-|[<-|[]]];
      vm_compute; discriminate. }
  split; [exact utcDateString_not_index|]. split; [exact Hdisjoint|].
  apply (feed_app_disjoint_days utcDateString numericContractsFeed secondDayFeed).
  - exact utcDateString_not_index.
  - exact Hdisjoint.
Defined.

Lemma unseen_feed_flags_sample :
  useUnseenGroupedNotification utcDateString (Some sampleFeed)
  = Some (groupNotifications utcDateString (unseenOf sampleFeed))
  /\ In unseenGroup (groupNotifications utcDateString (unseenOf sampleFeed))
  /\ (forall n, In n (notifications unseenGroup) -> isSeen n = false)
  /\ NotificationGroup.isSeen unseenGroup
     = match type unseenGroup with normal => true | income => false end.
Proof.
  split; [reflexivity|]. split; [vm_compute; auto 10|].
  apply (unseen_feed_flags utcDateString (Some sampleFeed)
           (feed := groupNotifications utcDateString (unseenOf sampleFeed))).
  - reflexivity.
  - vm_compute. auto 10.
Defined.

Lemma unseen_group_from_feed_sample :
  useGroupedNotifications utcDateString (Some sampleFeed)
  = Some (groupNotifications utcDateString sampleFeed)
  /\ useUnseenGroupedNotification utcDateString (Some sampleFeed)
     = Some (groupNotifications utcDateString (unseenOf sampleFeed))
  /\ In unseenGroup (groupNotifications utcDateString (unseenOf sampleFeed))
  /\ exists g, In g (groupNotifications utcDateString sampleFeed)
               /\ label g = label unseenGroup
               /\ notifications unseenGroup = unseenOf (notifications g).
Proof.
  split; [reflexivity|]. split; [reflexivity|]. split; [vm_compute; auto 10|].
  apply (unseen_group_from_feed utcDateString (Some sampleFeed)
           (feed := groupNotifications utcDateString sampleFeed)
           (unseenFeed := groupNotifications utcDateString (unseenOf sampleFeed))).
  - reflexivity.
  - reflexivity.
  - vm_compute. auto 10.
Defined.

Lemma feed_group_in_unseen_sample :
  useGroupedNotifications utcDateString (Some sampleFeed)
  = Some (groupNotifications utcDateString sampleFeed)
  /\ useUnseenGroupedNotification utcDateString (Some sampleFeed)
     = Some (groupNotifications utcDateString (unseenOf sampleFeed))
  /\ In sampleNormalGroup (groupNotifications utcDateString sampleFeed)
  /\ unseenOf (notifications sampleNormalGroup) <> []
  /\ exists g', In g' (groupNotifications utcDateString (unseenOf sampleFeed))
                /\ label g' = label sampleNormalGroup
                /\ notifications g' = unseenOf (notifications sampleNormalGroup).
Proof.
  split; [reflexivity|]. split; [reflexivity|]. split; [vm_compute; auto 10|].
  split; [vm_compute; discriminate|].
  apply (feed_group_in_unseen utcDateString (Some sampleFeed)
           (feed := groupNotifications utcDateString sampleFeed)
           (unseenFeed := groupNotifications utcDateString (unseenOf sampleFeed))).
  - reflexivity.
  - reflexivity.
  - vm_compute. auto 10.
  - vm_compute. discriminate.
Defined.

Example query_with_sigil :
  (OmniSearch.prefix "@bob", OmniSearch.search "@bob",
   OmniSearch.userHitLimit "@bob", OmniSearch.groupHitLimit "@bob",
   OmniSearch.marketHitLimit "@bob")
  = ("@", "bob", 25, 0, 0).
Proof. reflexivity. Qed.

Example query_without_sigil :
  (OmniSearch.prefix "bob@", OmniSearch.search "bob@",
   OmniSearch.userHitLimit "bob@", OmniSearch.groupHitLimit "bob@",
   OmniSearch.marketHitLimit "bob@")
  = ("", "bob@", 2, 2, 20).
Proof. reflexivity. Qed.
